(** * sregex, bench/pcre.c: the PCRE benchmarking harness

    A shallow embedding of [main], [run_engines] and [usage] of
    [bench/pcre.c].  The harness drives the PCRE library and the C runtime;
    both are external to the repository, so they appear here as an
    environment [env] of deterministic answers, and the program is written
    in a small state-and-exit monad over a [world] that holds the two output
    streams, [errno], the number of [clock()] calls made so far and the
    trace of external calls. *)

From Stdlib Require Import ZArith List String Ascii Bool Lia DecimalString.
From Stdlib Require Import Strings.Byte.
From Stdlib Require Import Permutation.
Import ListNotations.

Local Open Scope string_scope.
Local Open Scope list_scope.
Local Open Scope Z_scope.

(** ** C integers *)

(** [int] is 32 bits, [long] and [size_t] are 64 bits (LP64). *)
Definition to_int (z : Z) : Z := (z + 2 ^ 31) mod 2 ^ 32 - 2 ^ 31.
Definition to_unsigned (z : Z) : Z := z mod 2 ^ 32.
Definition to_long (z : Z) : Z := (z + 2 ^ 63) mod 2 ^ 64 - 2 ^ 63.
Definition to_size_t (z : Z) : Z := z mod 2 ^ 64.

Definition INT_MAX : Z := 2147483647.
Definition sizeof_int : Z := 4.

(** [%d] and [%ld] of [printf]. *)
Definition fmt_d (z : Z) : string := NilZero.string_of_int (Z.to_int z).

(** ** C strings *)

(** A C string is the [string] of its characters before the terminating
    NUL; reading at the end of the string gives the NUL. *)
Definition char_at0 (s : string) : ascii :=
  match s with
  | EmptyString => zero
  | String c _ => c
  end.

Definition cstr_tail (s : string) : string :=
  match s with
  | EmptyString => EmptyString
  | String _ t => t
  end.

Definition Z_of_char (c : ascii) : Z := Z.of_nat (nat_of_ascii c).

(** [strncmp(s1, s2, n)]: compares at most [n] characters and stops at the
    first difference or at a NUL. *)
Fixpoint strncmp (s1 s2 : string) (n : nat) : Z :=
  match n with
  | O => 0
  | S n' =>
      let c1 := char_at0 s1 in
      let c2 := char_at0 s2 in
      if negb (Ascii.eqb c1 c2) then Z_of_char c1 - Z_of_char c2
      else if Ascii.eqb c1 zero then 0
      else strncmp (cstr_tail s1) (cstr_tail s2) n'
  end.

(** [sizeof("lit") - 1]. *)
Definition sizeof_lit_minus_1 (lit : string) : nat := String.length lit.

(** ** The engine bits *)

Definition ENGINE_DEFAULT : Z := Z.shiftl 1 0.
Definition ENGINE_JIT : Z := Z.shiftl 1 1.
Definition ENGINE_DFA : Z := Z.shiftl 1 2.

(** ** The environment: PCRE and the C runtime *)

(** Opaque handles of the library. *)
Definition pcre := nat.
Definition pcre_extra := nat.

(** What one stream opened by [fopen] will answer. *)
Record file := mkFile {
  f_seek_end : Z;          (* fseek(f, 0L, SEEK_END) *)
  f_tell : Z;              (* ftell(f) *)
  f_seek_set : Z;          (* fseek(f, 0L, SEEK_SET) *)
  f_data : list byte;      (* the bytes fread can deliver *)
  f_eof : bool;            (* feof(f) after the read *)
  f_close : Z;             (* fclose(f) *)
  f_errno : Z              (* errno left by a failing call on the stream *)
}.

(** The constants of [pcre.h] and [time.h] are not part of the repository
    and are taken as parameters, with the answers of the external calls. *)
Record env := mkEnv {
  PCRE_ERROR_NOMATCH : Z;
  PCRE_CASELESS : Z;
  PCRE_STUDY_JIT_COMPILE : Z;
  PCRE_INFO_CAPTURECOUNT : Z;
  (* the text printf gives for [(double) 1.0 / CLOCKS_PER_SEC] under %lf *)
  clock_unit_lf : string;
  strerror : Z -> string;
  (* pcre_compile(pattern, flags, &errstr, &err_offset, NULL):
     the handle, or NULL with errstr and err_offset set *)
  pcre_compile : string -> Z -> pcre + (string * Z);
  (* pcre_fullinfo(re, NULL, what, &ncaps): return value and ncaps *)
  pcre_fullinfo : pcre -> Z -> Z * Z;
  (* pcre_study(re, options, &errstr): the result and errstr *)
  pcre_study : pcre -> Z -> pcre_extra * option string;
  (* pcre_exec(re, extra, input, len, 0, 0, ovector, ovecsize):
     return value and the contents of ovector afterwards *)
  pcre_exec : pcre -> pcre_extra -> list byte -> Z -> Z -> Z * list Z;
  (* pcre_dfa_exec(re, extra, input, len, 0, 0, ovector, ovecsize,
     ws, wscount) *)
  pcre_dfa_exec : pcre -> pcre_extra -> list byte -> Z -> Z -> Z -> Z * list Z;
  (* the value of the n-th call of clock() *)
  clock : nat -> Z;
  (* whether malloc of that many bytes gives a non-NULL pointer *)
  malloc : Z -> bool;
  (* fopen(path, "rb"): the stream, or NULL with that errno *)
  fopen : string -> file + Z;
  (* the diagnostic a failed assert writes to standard error, for the text
     of the expression, the name of the function and the line; its format
     is left to the implementation *)
  assert_text : string -> string -> Z -> string
}.

(** External calls, as they are made. *)
Inductive event : Type :=
| EvCompile (pattern : string) (flags : Z)
| EvFullinfo (re : pcre) (what : Z)
| EvFopen (path : string)
| EvFseekEnd
| EvFtell
| EvFseekSet
| EvMalloc (bytes : Z)
| EvFread (len : Z)
| EvFclose
| EvStudy (re : pcre) (options : Z)
| EvClock
| EvExec (re : pcre) (extra : pcre_extra) (input : list byte)
         (len startoff options ovecsize : Z)
| EvDfaExec (re : pcre) (extra : pcre_extra) (input : list byte)
            (len startoff options ovecsize wscount : Z).

Record world := mkWorld {
  w_stdout : string;
  w_stderr : string;
  w_errno : Z;
  w_clock : nat;
  w_trace : list event
}.

Definition init_world : world := mkWorld "" "" 0 0 [].

(** ** The monad *)

(** A computation returns, leaves the process through [exit], aborts on a
    failed [assert], or reads outside an array. *)
Inductive outcome (A : Type) : Type :=
| Ret (a : A)
| Exit (status : Z)
| Abort
| Undef.

Arguments Ret {A} a.
Arguments Exit {A} status.
Arguments Abort {A}.
Arguments Undef {A}.

Definition M (A : Type) : Type := world -> outcome A * world.

Definition ret {A} (a : A) : M A := fun w => (Ret a, w).

Definition bind {A B} (m : M A) (k : A -> M B) : M B :=
  fun w =>
    match m w with
    | (Ret a, w') => k a w'
    | (Exit s, w') => (Exit s, w')
    | (Abort, w') => (Abort, w')
    | (Undef, w') => (Undef, w')
    end.

Declare Scope harness_scope.
Delimit Scope harness_scope with harness.

Notation "x <- c1 ;; c2" := (bind c1 (fun x => c2))
  (at level 61, c1 at next level, right associativity) : harness_scope.
Notation "' pat <- c1 ;; c2" :=
  (bind c1 (fun x => match x with pat => c2 end))
  (at level 61, pat pattern, c1 at next level, right associativity)
  : harness_scope.
Notation "c1 ;; c2" := (bind c1 (fun _ => c2))
  (at level 61, right associativity) : harness_scope.

Local Open Scope harness_scope.

Definition exit {A} (status : Z) : M A := fun w => (Exit status, w).
Definition abort {A} : M A := fun w => (Abort, w).
Definition undef {A} : M A := fun w => (Undef, w).

Definition when (b : bool) (m : M unit) : M unit := if b then m else ret tt.

Definition printf (s : string) : M unit :=
  fun w => (Ret tt, mkWorld (w_stdout w ++ s) (w_stderr w) (w_errno w)
                            (w_clock w) (w_trace w)).

(** [fprintf(stderr, ...)]. *)
Definition eprintf (s : string) : M unit :=
  fun w => (Ret tt, mkWorld (w_stdout w) (w_stderr w ++ s) (w_errno w)
                            (w_clock w) (w_trace w)).

Definition set_errno (n : Z) : M unit :=
  fun w => (Ret tt, mkWorld (w_stdout w) (w_stderr w) n
                            (w_clock w) (w_trace w)).

Definition emit (ev : event) : M unit :=
  fun w => (Ret tt, mkWorld (w_stdout w) (w_stderr w) (w_errno w)
                            (w_clock w) (w_trace w ++ [ev])).

(** Reading [a[n]]. *)
Definition read_int (a : list Z) (n : Z) : M Z :=
  if n <? 0 then undef
  else match nth_error a (Z.to_nat n) with
       | Some v => ret v
       | None => undef
       end.

Section Harness.

Variable e : env.

Definition perror (s : string) : M unit :=
  fun w => eprintf (s ++ ": " ++ strerror e (w_errno w) ++ "
") w.

(** [assert(p)] for a pointer [p], in the function [func] at [line]: a
    failed assertion writes its diagnostic to standard error and aborts. *)
Definition assert (nonnull : bool) (expr func : string) (line : Z)
  : M unit :=
  if nonnull then ret tt
  else eprintf (assert_text e expr func line) ;; abort.

Definition c_clock : M Z :=
  fun w => (Ret (clock e (w_clock w)),
            mkWorld (w_stdout w) (w_stderr w) (w_errno w)
                    (S (w_clock w)) (w_trace w ++ [EvClock])).

Definition c_malloc (bytes : Z) : M bool :=
  emit (EvMalloc bytes) ;; ret (malloc e bytes).

Definition c_pcre_compile (pattern : string) (flags : Z)
  : M (pcre + (string * Z)) :=
  emit (EvCompile pattern flags) ;; ret (pcre_compile e pattern flags).

Definition c_pcre_fullinfo (re : pcre) (what : Z) : M (Z * Z) :=
  emit (EvFullinfo re what) ;; ret (pcre_fullinfo e re what).

Definition c_pcre_study (re : pcre) (options : Z)
  : M (pcre_extra * option string) :=
  emit (EvStudy re options) ;; ret (pcre_study e re options).

Definition c_pcre_exec (re : pcre) (extra : pcre_extra) (input : list byte)
    (len startoff options ovecsize : Z) : M (Z * list Z) :=
  emit (EvExec re extra input len startoff options ovecsize) ;;
  ret (pcre_exec e re extra input len ovecsize).

Definition c_pcre_dfa_exec (re : pcre) (extra : pcre_extra)
    (input : list byte) (len startoff options ovecsize wscount : Z)
  : M (Z * list Z) :=
  emit (EvDfaExec re extra input len startoff options ovecsize wscount) ;;
  ret (pcre_dfa_exec e re extra input len ovecsize wscount).

(** A failing call on a stream leaves its errno. *)
Definition stream_call (ev : event) (f : file) (rc : Z) (failed : bool)
  : M Z :=
  emit ev ;; when failed (set_errno (f_errno f)) ;; ret rc.

Definition c_fopen (path : string) : M (option file) :=
  emit (EvFopen path) ;;
  match fopen e path with
  | inl f => ret (Some f)
  | inr en => set_errno en ;; ret None
  end.

Definition c_fseek_end (f : file) : M Z :=
  stream_call EvFseekEnd f (f_seek_end f) (negb (f_seek_end f =? 0)).

Definition c_ftell (f : file) : M Z :=
  stream_call EvFtell f (f_tell f) (f_tell f =? -1).

Definition c_fseek_set (f : file) : M Z :=
  stream_call EvFseekSet f (f_seek_set f) (negb (f_seek_set f =? 0)).

(** [fread(input, 1, len, f)]: the bytes stored and their number. *)
Definition c_fread (f : file) (len : Z) : M (list byte * Z) :=
  let got := firstn (Z.to_nat len) (f_data f) in
  let n := Z.of_nat (List.length got) in
  emit (EvFread len) ;;
  when (andb (n <? len) (negb (f_eof f))) (set_errno (f_errno f)) ;;
  ret (got, n).

Definition c_fclose (f : file) : M Z :=
  stream_call EvFclose f (f_close f) (negb (f_close f =? 0)).

(** ** The program *)

Definition usage_text : string :=
  "usage: sregex [options] <regexp> <file>
options:
   -i                  use case insensitive matching
   --default           use the default PCRE engine
   --dfa               use the PCRE DFA engine
   --jit               use the PCRE JIT engine
".

(** [usage(rc)] does not return. *)
Definition usage {A} (rc : Z) : M A :=
  eprintf usage_text ;; exit rc.

(** The option loop of [main], [for (i = 1; i < argc; i++)], on the
    arguments [argv[i..]] that are left: the test [i < argc] is the test
    that an argument is left.  It gives [i], [flags] and [engine_types] at
    the end of the loop. *)
Fixpoint option_loop (rest : list string) (i flags engine_types : Z)
  : M (Z * Z * Z) :=
  match rest with
  | [] => ret (i, flags, engine_types)
  | arg :: rest' =>
      if negb (Ascii.eqb (char_at0 arg) "-"%char) then
        ret (i, flags, engine_types)
      else if strncmp arg "--default" (sizeof_lit_minus_1 "--default") =? 0
      then option_loop rest' (to_unsigned (i + 1)) flags
                       (Z.lor engine_types ENGINE_DEFAULT)
      else if strncmp arg "--jit" (sizeof_lit_minus_1 "--jit") =? 0
      then option_loop rest' (to_unsigned (i + 1)) flags
                       (Z.lor engine_types ENGINE_JIT)
      else if strncmp arg "--dfa" (sizeof_lit_minus_1 "--dfa") =? 0
      then option_loop rest' (to_unsigned (i + 1)) flags
                       (Z.lor engine_types ENGINE_DFA)
      else if strncmp arg "-i" 2 =? 0
      then option_loop rest' (to_unsigned (i + 1))
                       (Z.lor flags (PCRE_CASELESS e)) engine_types
      else
        eprintf ("unknown option: " ++ arg ++ "
") ;; exit 1
  end.

(** [argv[i]]. *)
Definition argv_at (argv : list string) (i : Z) : string :=
  nth (Z.to_nat i) argv "".

(** The loop [for (i = 0, n = 0; i < rc; i++, n += 2)] that prints the
    pairs, with [count] iterations left. *)
Fixpoint print_pairs (count : nat) (n : Z) (ovector : list Z) : M unit :=
  match count with
  | O => ret tt
  | S count' =>
      a <- read_int ovector n ;;
      b <- read_int ovector (n + 1) ;;
      printf (" (" ++ fmt_d a ++ ", " ++ fmt_d b ++ ")") ;;
      print_pairs count' (n + 2) ovector
  end.

Definition elapsed_text (elapsed : Z) : string :=
  ": " ++ fmt_d elapsed ++ " clock units elapsed.
".

Definition error_text (rc : Z) : string :=
  "error: " ++ fmt_d rc ++ "
".

(** The block [if (engine_types & ENGINE_DEFAULT) { ... }]. *)
Definition default_block (re : pcre) (ncaps : Z) (input : list byte)
    (len : Z) : M unit :=
  let ovecsize := to_size_t (to_int ((ncaps + 1) * 3)) in
  ovector <- c_malloc (to_size_t (ovecsize * sizeof_int)) ;;
  assert ovector "ovector" "run_engines" 166 ;;
  printf "pcre default " ;;
  '(extra, errstr) <- c_pcre_study re 0 ;;
  match errstr with
  | Some msg => eprintf ("failed to study the regex: " ++ msg) ;; exit 2
  | None =>
  begin <- c_clock ;;
  if begin =? -1 then perror "clock" ;; exit 2 else
  '(rc, ovector) <- c_pcre_exec re extra input (to_int len) 0 0
                                (to_int ovecsize) ;;
  now <- c_clock ;;
  let elapsed := to_long (now - begin) in
  if elapsed <? 0 then perror "clock" ;; exit 2 else
  if rc =? 0 then eprintf "capture size too small" ;; exit 2 else
  when (rc =? PCRE_ERROR_NOMATCH e) (printf "no match") ;;
  when (rc <? 0) (printf (error_text rc) ;; exit 2) ;;
  when (rc >? 0) (printf "match" ;; print_pairs (Z.to_nat rc) 0 ovector) ;;
  printf (elapsed_text elapsed)
  end.

(** The block [if (engine_types & ENGINE_JIT) { ... }]. *)
Definition jit_block (re : pcre) (ncaps : Z) (input : list byte)
    (len : Z) : M unit :=
  let ovecsize := to_size_t (to_int ((ncaps + 1) * 3)) in
  ovector <- c_malloc (to_size_t (ovecsize * sizeof_int)) ;;
  assert ovector "ovector" "run_engines" 218 ;;
  printf "pcre JIT " ;;
  '(extra, errstr) <- c_pcre_study re (PCRE_STUDY_JIT_COMPILE e) ;;
  match errstr with
  | Some msg => eprintf ("failed to study the regex: " ++ msg) ;; exit 2
  | None =>
  begin <- c_clock ;;
  if begin =? -1 then perror "clock" ;; exit 2 else
  '(rc, ovector) <- c_pcre_exec re extra input (to_int len) 0 0
                                (to_int ovecsize) ;;
  now <- c_clock ;;
  let elapsed := to_long (now - begin) in
  if elapsed <? 0 then perror "clock" ;; exit 2 else
  if rc =? 0 then eprintf "capture size too small" ;; exit 2 else
  when (rc =? PCRE_ERROR_NOMATCH e) (printf "no match") ;;
  when (rc <? 0) (printf (error_text rc) ;; exit 2) ;;
  when (rc >? 0) (printf "match" ;; print_pairs (Z.to_nat rc) 0 ovector) ;;
  printf (elapsed_text elapsed)
  end.

(** [sizeof(ws)/sizeof(ws[0])] for [int ws[100]]. *)
Definition ws_count : Z := (100 * sizeof_int) / sizeof_int.

(** The block [if (engine_types & ENGINE_DFA) { ... }]. *)
Definition dfa_block (re : pcre) (ncaps : Z) (input : list byte)
    (len : Z) : M unit :=
  let ovecsize := 2 in
  ovector <- c_malloc (to_size_t (ovecsize * sizeof_int)) ;;
  assert ovector "ovector" "run_engines" 271 ;;
  printf "pcre DFA " ;;
  '(extra, errstr) <- c_pcre_study re 0 ;;
  match errstr with
  | Some msg => eprintf ("failed to study the regex: " ++ msg) ;; exit 2
  | None =>
  begin <- c_clock ;;
  if begin =? -1 then perror "clock" ;; exit 2 else
  '(rc, ovector) <- c_pcre_dfa_exec re extra input (to_int len) 0 0
                                    (to_int ovecsize) (to_int ws_count) ;;
  now <- c_clock ;;
  let elapsed := to_long (now - begin) in
  if elapsed <? 0 then perror "clock" ;; exit 2 else
  let rc := if rc =? 0 then 1 else rc in
  when (rc =? PCRE_ERROR_NOMATCH e) (printf "no match") ;;
  when (rc <? 0) (printf (error_text rc) ;; exit 2) ;;
  when (rc >? 0) (printf "match" ;; print_pairs (Z.to_nat rc) 0 ovector) ;;
  printf (elapsed_text elapsed)
  end.

Definition footer_text : string :=
  "(1 clock unit is " ++ clock_unit_lf e ++ " sec)
".

Definition run_engines (re : pcre) (engine_types : Z) (ncaps : Z)
    (input : list byte) (len : Z) : M unit :=
  when (negb (Z.land engine_types ENGINE_DEFAULT =? 0))
       (default_block re ncaps input len) ;;
  when (negb (Z.land engine_types ENGINE_JIT =? 0))
       (jit_block re ncaps input len) ;;
  when (negb (Z.land engine_types ENGINE_DFA =? 0))
       (dfa_block re ncaps input len) ;;
  printf footer_text.

(** The part of [main] from [errno = 0] and [fopen] on.  [short] is the
    status [main] returns with inside the test of the short read: it
    returns 1 at the end of the file, and after [perror("read file")] it
    does not return. *)
Definition load_and_run (re : pcre) (engine_types ncaps : Z)
    (path : string) : M Z :=
  set_errno 0 ;;
  f <- c_fopen path ;;
  match f with
  | None => perror "open file" ;; ret 1
  | Some f =>
  rc <- c_fseek_end f ;;
  if negb (rc =? 0) then perror "seek to file end" ;; ret 1 else
  rc <- c_ftell f ;;
  if rc =? -1 then perror "get file offset by ftell" ;; ret 1 else
  let len := to_size_t rc in
  rc' <- c_fseek_set f ;;
  if negb (rc' =? 0) then perror "seek to file beginning" ;; ret 1 else
  input <- c_malloc len ;;
  if negb input then
    eprintf ("failed to allocate " ++ fmt_d (to_long len) ++ " bytes.
") ;; ret 1
  else
  '(input, n) <- c_fread f len ;;
  short <- (if n <? len then
              if f_eof f then eprintf "file truncated.
" ;; ret (Some 1)
              else perror "read file" ;; ret None
            else ret None) ;;
  match short with
  | Some status => ret status
  | None =>
  rc <- c_fclose f ;;
  if negb (rc =? 0) then perror "close file" ;; ret 1 else
  run_engines re engine_types ncaps input len ;;
  ret 0
  end
  end.

(** The part of [main] after the option loop, from the two checks on. *)
Definition after_options (argv : list string) (i flags engine_types : Z)
  : M Z :=
  let argc := Z.of_nat (List.length argv) in
  when (engine_types =? 0) (eprintf "No engine specified.
" ;; exit 1) ;;
  when (negb (to_unsigned (argc - i) =? 2)) (usage 1) ;;
  r <- c_pcre_compile (argv_at argv i) flags ;;
  let i := to_unsigned (i + 1) in
  match r with
  | inr (errstr, err_offset) =>
      eprintf ("[error] pos " ++ fmt_d err_offset ++ ": " ++ errstr ++ "
") ;;
      ret 2
  | inl re =>
  '(rc, ncaps) <- c_pcre_fullinfo re (PCRE_INFO_CAPTURECOUNT e) ;;
  if rc <? 0 then eprintf "failed to get capture count.
" ;; ret 2
  else load_and_run re engine_types ncaps (argv_at argv i)
  end.

Definition main (argv : list string) : M Z :=
  let argc := Z.of_nat (List.length argv) in
  when (argc <? 3) (usage 1) ;;
  '(i, flags, engine_types) <- option_loop (skipn 1 argv) 1 0 0 ;;
  after_options argv i flags engine_types.

(** The process: the value [main] returns is the exit status. *)
Definition process (argv : list string) : outcome Z * world :=
  match main argv init_world with
  | (Ret status, w) => (Exit status, w)
  | r => r
  end.

End Harness.

(** * Definitions used in the statements *)

(** ** A sample environment

    One concrete library and file system, for running the model: the
    pattern decides what the match routines answer. *)

Definition sample_file : file :=
  mkFile 0 6 0 [Byte.x41; Byte.x42; Byte.x43; Byte.x58; Byte.x59; Byte.x5a]
         true 0 5.

(** A stream that delivers four of its six bytes and then fails. *)
Definition failing_file : file :=
  mkFile 0 6 0 [Byte.x41; Byte.x42; Byte.x43; Byte.x58] false 0 5.

Definition sample_env : env :=
  mkEnv (-1) 1 1 2 "0.000001"
    (fun n => ("Error " ++ fmt_d n)%string)
    (fun pattern flags =>
       if String.eqb pattern "(" then inr ("missing )", 1)
       else if String.eqb pattern "abc" then inl (Z.to_nat (10 + flags))
       else if String.eqb pattern "(a+)+$" then inl 20%nat
       else inl 30%nat)
    (fun re what => (0, if Nat.eqb re 20 then 1 else 0))
    (fun re options => (Z.to_nat options, None))
    (fun re extra input len ovecsize =>
       if Nat.eqb re 11 then (1, [0; 3; 0])
       else if Nat.eqb re 20 then (-8, [0; 0; 0; 0; 0; 0])
       else if Nat.eqb re 30 then (0, repeat 0 (Z.to_nat ovecsize))
       else (-1, repeat 0 (Z.to_nat ovecsize)))
    (fun re extra input len ovecsize wscount =>
       if Nat.eqb re 11 then (0, [0; 3])
       else if Nat.eqb re 20 then (-8, [0; 0])
       else (-1, [0; 0]))
    (fun n => 100 + 7 * Z.of_nat n)
    (fun bytes => true)
    (fun path =>
       if String.eqb path "in.txt" then inl sample_file
       else if String.eqb path "bad.txt" then inl failing_file
       else inr 2)
    (fun expr func line =>
       ("pcre.c:" ++ fmt_d line ++ ": " ++ func ++ ": Assertion `" ++ expr
        ++ "' failed.
")%string).

(** ** The option tokens

    What the option loop computes, token by token, in terms of the
    literal that is a prefix of the token. *)

Fixpoint no_nul (s : string) : bool :=
  match s with
  | EmptyString => true
  | String c t => negb (Ascii.eqb c zero) && no_nul t
  end.

Inductive option_kind : Type := OptDefault | OptJit | OptDfa | OptCaseless.

(** The option a token is taken for: the first of the four literals, in
    the order of the tests, that is a prefix of it. *)
Definition classify (arg : string) : option option_kind :=
  if prefix "--default" arg then Some OptDefault
  else if prefix "--jit" arg then Some OptJit
  else if prefix "--dfa" arg then Some OptDfa
  else if prefix "-i" arg then Some OptCaseless
  else None.

Definition is_option (arg : string) : bool :=
  match classify arg with Some _ => true | None => false end.

Definition is_caseless (arg : string) : bool :=
  match classify arg with Some OptCaseless => true | _ => false end.

Definition flags_step (e : env) (flags : Z) (arg : string) : Z :=
  match classify arg with
  | Some OptCaseless => Z.lor flags (PCRE_CASELESS e)
  | _ => flags
  end.

Definition engines_step (engine_types : Z) (arg : string) : Z :=
  match classify arg with
  | Some OptDefault => Z.lor engine_types ENGINE_DEFAULT
  | Some OptJit => Z.lor engine_types ENGINE_JIT
  | Some OptDfa => Z.lor engine_types ENGINE_DFA
  | _ => engine_types
  end.

Definition flags_after (e : env) (flags : Z) (opts : list string) : Z :=
  fold_left (flags_step e) opts flags.

Definition engines_after (engine_types : Z) (opts : list string) : Z :=
  fold_left engines_step opts engine_types.

Definition index_after (i : Z) (opts : list string) : Z :=
  fold_left (fun i _ => to_unsigned (i + 1)) opts i.

(** The loop stops in front of [rest]: at the end of [argv], or at a token
    that does not begin with a dash. *)
Definition stops_at (rest : list string) : bool :=
  match rest with
  | [] => true
  | arg :: _ => negb (Ascii.eqb (char_at0 arg) "-"%char)
  end.

(** ** The engines

    The three blocks of [run_engines], written once with the engine as a
    parameter; the lemmas below show that they are the blocks. *)

Inductive engine : Type := Default | JIT | DFA.

Definition engine_name (eng : engine) : string :=
  match eng with
  | Default => "pcre default "
  | JIT => "pcre JIT "
  | DFA => "pcre DFA "
  end.

Definition engine_bit (eng : engine) : Z :=
  match eng with
  | Default => ENGINE_DEFAULT
  | JIT => ENGINE_JIT
  | DFA => ENGINE_DFA
  end.

Definition study_options (e : env) (eng : engine) : Z :=
  match eng with
  | JIT => PCRE_STUDY_JIT_COMPILE e
  | _ => 0
  end.

(** The line of [assert(ovector)] in the block of an engine. *)
Definition assert_line (eng : engine) : Z :=
  match eng with
  | Default => 166
  | JIT => 218
  | DFA => 271
  end.

Definition engine_ovecsize (eng : engine) (ncaps : Z) : Z :=
  match eng with
  | DFA => 2
  | _ => to_size_t (to_int ((ncaps + 1) * 3))
  end.

(** What the blocks do from the test of [rc] against the no-match value
    on. *)
Definition report (e : env) (rc : Z) (ovector : list Z) (elapsed : Z)
  : M unit :=
  (when (rc =? PCRE_ERROR_NOMATCH e) (printf "no match") ;;
   when (rc <? 0) (printf (error_text rc) ;; exit 2) ;;
   when (rc >? 0) (printf "match" ;; print_pairs (Z.to_nat rc) 0 ovector) ;;
   printf (elapsed_text elapsed))%harness.

(** The call of the match routine of an engine. *)
Definition engine_exec (e : env) (eng : engine) (re : pcre)
    (extra : pcre_extra) (input : list byte) (len ovecsize : Z)
  : M (Z * list Z) :=
  match eng with
  | DFA => c_pcre_dfa_exec e re extra input (to_int len) 0 0
                           (to_int ovecsize) (to_int ws_count)
  | _ => c_pcre_exec e re extra input (to_int len) 0 0 (to_int ovecsize)
  end.

(** One block, by engine: the three blocks of [run_engines] differ in the
    name, the size of [ovector], the options of [pcre_study], the match
    routine and the treatment of a return value of 0. *)
Definition engine_block (e : env) (eng : engine) (re : pcre) (ncaps : Z)
    (input : list byte) (len : Z) : M unit :=
  (let ovecsize := engine_ovecsize eng ncaps in
   ovector <- c_malloc e (to_size_t (ovecsize * sizeof_int)) ;;
   assert e ovector "ovector" "run_engines" (assert_line eng) ;;
   printf (engine_name eng) ;;
   '(extra, errstr) <- c_pcre_study e re (study_options e eng) ;;
   match errstr with
   | Some msg => eprintf ("failed to study the regex: " ++ msg) ;; exit 2
   | None =>
   begin <- c_clock e ;;
   if begin =? -1 then perror e "clock" ;; exit 2 else
   '(rc, ovector) <- engine_exec e eng re extra input len ovecsize ;;
   now <- c_clock e ;;
   let elapsed := to_long (now - begin) in
   if elapsed <? 0 then perror e "clock" ;; exit 2 else
   match eng with
   | DFA => report e (if rc =? 0 then 1 else rc) ovector elapsed
   | _ => if rc =? 0 then eprintf "capture size too small" ;; exit 2
          else report e rc ovector elapsed
   end
   end)%harness.

Definition selected (engine_types : Z) (eng : engine) : bool :=
  negb (Z.land engine_types (engine_bit eng) =? 0).

(** The engines of a selection, in the order of the blocks. *)
Definition selected_engines (engine_types : Z) : list engine :=
  filter (selected engine_types) [Default; JIT; DFA].

Fixpoint run_blocks (e : env) (engines : list engine) (re : pcre)
    (ncaps : Z) (input : list byte) (len : Z) : M unit :=
  match engines with
  | [] => ret tt
  | eng :: engines' =>
      (engine_block e eng re ncaps input len ;;
       run_blocks e engines' re ncaps input len)%harness
  end.

(** ** Worlds, calls and output of the blocks *)

(** The calls of one block that runs to its end. *)
Definition engine_events (e : env) (eng : engine) (re : pcre) (ncaps : Z)
    (input : list byte) (len : Z) : list event :=
  let ovecsize := engine_ovecsize eng ncaps in
  let extra := fst (pcre_study e re (study_options e eng)) in
  [EvMalloc (to_size_t (ovecsize * sizeof_int));
   EvStudy re (study_options e eng);
   EvClock;
   match eng with
   | DFA => EvDfaExec re extra input (to_int len) 0 0 (to_int ovecsize)
                      (to_int ws_count)
   | _ => EvExec re extra input (to_int len) 0 0 (to_int ovecsize)
   end;
   EvClock].

Definition is_prefix {A} (l full : list A) : Prop :=
  exists rest, full = l ++ rest.

(** [w'] is [w] after some output, calls and readings of the clock. *)
Record extends (w w' : world) (out err : string) (tr : list event) : Prop :=
  mkExtends {
    ext_stdout : w_stdout w' = (w_stdout w ++ out)%string;
    ext_stderr : w_stderr w' = (w_stderr w ++ err)%string;
    ext_errno : w_errno w' = w_errno w;
    ext_trace : w_trace w' = w_trace w ++ tr
  }.

(** The answer of the match routine of an engine. *)
Definition engine_answer (e : env) (eng : engine) (re : pcre)
    (extra : pcre_extra) (input : list byte) (len ovecsize : Z)
  : Z * list Z :=
  match eng with
  | DFA => pcre_dfa_exec e re extra input (to_int len) (to_int ovecsize)
                         (to_int ws_count)
  | _ => pcre_exec e re extra input (to_int len) (to_int ovecsize)
  end.

(** What a block does with the return value, once both readings of the
    clock are taken. *)
Definition after_match (e : env) (eng : engine) (rc : Z) (ovector : list Z)
    (elapsed : Z) : M unit :=
  match eng with
  | DFA => report e (if rc =? 0 then 1 else rc) ovector elapsed
  | _ => if rc =? 0 then (eprintf "capture size too small" ;; exit 2)%harness
         else report e rc ovector elapsed
  end.

Definition perror_text (e : env) (s : string) (w : world) : string :=
  (s ++ ": " ++ strerror e (w_errno w) ++ "
")%string.

Definition concat_lines (lines : list string) : string :=
  fold_right String.append ""%string lines.

(** A line of an engine that ran to its end: the name, the result, the
    elapsed time. *)
Definition engine_line (eng : engine) (line : string) : Prop :=
  exists body elapsed,
    line = (engine_name eng ++ body ++ elapsed_text elapsed)%string.

Definition all_events (e : env) (engines : list engine) (re : pcre)
    (ncaps : Z) (input : list byte) (len : Z) : list event :=
  List.concat
    (map (fun eng => engine_events e eng re ncaps input len) engines).

(** The block of [eng], started in [w], reaches the match routine and both
    readings of the clock are good: the allocation and [pcre_study]
    succeed, the first reading is not -1 and the time elapsed is not
    negative; the match routine returns [rc] and leaves [ovector]. *)
Definition match_returns (e : env) (eng : engine) (re : pcre) (ncaps : Z)
    (input : list byte) (len : Z) (w : world) (rc : Z) (ovector : list Z)
  : Prop :=
  malloc e (to_size_t (engine_ovecsize eng ncaps * sizeof_int)) = true
  /\ snd (pcre_study e re (study_options e eng)) = None
  /\ (clock e (w_clock w) =? -1) = false
  /\ (to_long (clock e (S (w_clock w)) - clock e (w_clock w)) <? 0) = false
  /\ engine_answer e eng re (fst (pcre_study e re (study_options e eng)))
                   input len (engine_ovecsize eng ncaps) = (rc, ovector).

Definition elapsed_at (e : env) (w : world) : Z :=
  to_long (clock e (S (w_clock w)) - clock e (w_clock w)).

(** The world when the block of [eng] has timed its match routine. *)
Definition world_after_match (e : env) (eng : engine) (re : pcre)
    (ncaps : Z) (input : list byte) (len : Z) (w : world) : world :=
  mkWorld (w_stdout w ++ engine_name eng) (w_stderr w) (w_errno w)
          (S (S (w_clock w)))
          (w_trace w ++ engine_events e eng re ncaps input len).


(** The token [arg] is taken for the flag of [eng]. *)
Definition chooses (eng : engine) (arg : string) : bool :=
  match classify arg, eng with
  | Some OptDefault, Default => true
  | Some OptJit, JIT => true
  | Some OptDfa, DFA => true
  | _, _ => false
  end.

(** ** Loading the file and the diagnostics *)

(** The stream of [path] opens, is measured and rewound, and the buffer is
    allocated, so that [main] reaches [fread]. *)
Definition reaches_fread (e : env) (path : string) (f : file) : Prop :=
  fopen e path = inl f
  /\ f_seek_end f = 0
  /\ (f_tell f =? -1) = false
  /\ f_seek_set f = 0
  /\ malloc e (to_size_t (f_tell f)) = true.

(** The bytes [fread] stores for a request of [len] bytes. *)
Definition bytes_read (f : file) (len : Z) : list byte :=
  firstn (Z.to_nat len) (f_data f).

(** A computation started in [w] ended in [w'] with the status [s]:
    either the status is 0; or it is 1, standard output is as it was and
    standard error received a text; or it is 2, and standard error
    received a text or standard output ends with the code of a negative
    return value of a match routine. *)
Definition diagnosed (w w' : world) (s : Z) : Prop :=
  s = 0
  \/ (s = 1
      /\ w_stdout w' = w_stdout w
      /\ exists msg,
          msg <> ""%string /\ w_stderr w' = (w_stderr w ++ msg)%string)
  \/ (s = 2
      /\ ((exists msg,
              msg <> ""%string /\ w_stderr w' = (w_stderr w ++ msg)%string)
          \/ (exists pre rc,
                 rc < 0
                 /\ w_stdout w' =
                    (w_stdout w ++ pre ++ error_text rc)%string))).

Definition ended {A} (r : outcome A * world) (s : A) (t : Z) : Prop :=
  fst r = Ret s \/ fst r = Exit t.

(** ** Further definitions: arguments, pairs, calls *)

(** The value of [engine_types] when the flags of the engines marked
    [true] were given. *)
Definition engine_mask (d j f : bool) : Z :=
  (if d then ENGINE_DEFAULT else 0) + (if j then ENGINE_JIT else 0)
  + (if f then ENGINE_DFA else 0).

(** The text the printing loop gives for the integers [a0; b0; a1; b1; ...]. *)
Fixpoint pairs_text (l : list Z) : string :=
  match l with
  | a :: b :: l' =>
      (" (" ++ fmt_d a ++ ", " ++ fmt_d b ++ ")") ++ pairs_text l'
  | _ => ""
  end.

(** The block of [run_engines] for an engine. *)
Definition source_block (e : env) (eng : engine)
  : pcre -> Z -> list byte -> Z -> M unit :=
  match eng with
  | Default => default_block e
  | JIT => jit_block e
  | DFA => dfa_block e
  end.

(** The calls that only the blocks of [run_engines] make. *)
Definition engine_event (ev : event) : bool :=
  match ev with
  | EvStudy _ _ | EvClock | EvExec _ _ _ _ _ _ _
  | EvDfaExec _ _ _ _ _ _ _ _ => true
  | _ => false
  end.

(** A call of a block that is made on the pattern [re] and the buffer
    [input], with [len] given as its length, from offset 0 and without
    options. *)
Definition call_on (re : pcre) (input : list byte) (len : Z) (ev : event)
  : Prop :=
  match ev with
  | EvMalloc _ | EvClock => True
  | EvStudy re' _ => re' = re
  | EvExec re' _ input' len' startoff options _ =>
      re' = re /\ input' = input /\ len' = len
      /\ startoff = 0 /\ options = 0
  | EvDfaExec re' _ input' len' startoff options _ _ =>
      re' = re /\ input' = input /\ len' = len
      /\ startoff = 0 /\ options = 0
  | _ => False
  end.

(** Nothing was printed on standard output and no call of a block of
    [run_engines] was made. *)
Definition quiet (w : world) : Prop :=
  w_stdout w = ""%string
  /\ forallb (fun ev => negb (engine_event ev)) (w_trace w) = true.

(** A stream that reports six bytes and ends after two. *)
Definition truncated_file : file :=
  mkFile 0 6 0 [Byte.x41; Byte.x42] true 0 5.

(** A stream that reports 1200 bytes. *)
Definition big_file : file :=
  mkFile 0 1200 0 (repeat Byte.x41 1200) true 0 5.

(** A second environment, for the failures of the library and of the
    runtime: the pattern [noinfo] compiles to a handle whose capture count
    cannot be queried and [nostudy] to one that cannot be studied; the
    reading of the clock fails at the call number 10 and goes back between
    the calls 20 and 21; no block of 1200 bytes can be allocated; the
    file [short.txt] is truncated and [big.txt] has 1200 bytes. *)
Definition faulty_env : env :=
  mkEnv (-1) 1 1 2 "0.000001"
    (strerror sample_env)
    (fun pattern flags =>
       if String.eqb pattern "noinfo" then inl 40%nat
       else if String.eqb pattern "nostudy" then inl 41%nat
       else pcre_compile sample_env pattern flags)
    (fun re what =>
       if Nat.eqb re 40 then (-3, 0) else pcre_fullinfo sample_env re what)
    (fun re options =>
       if Nat.eqb re 41 then (0%nat, Some "out of memory"%string)
       else pcre_study sample_env re options)
    (pcre_exec sample_env)
    (pcre_dfa_exec sample_env)
    (fun n =>
       if Nat.eqb n 10 then -1
       else if Nat.eqb n 21 then 50
       else clock sample_env n)
    (fun bytes => negb (bytes =? 1200))
    (fun path =>
       if String.eqb path "short.txt" then inl truncated_file
       else if String.eqb path "big.txt" then inl big_file
       else fopen sample_env path)
    (assert_text sample_env).

(** The return value a block goes by: the block of the DFA engine takes
    0 for 1. *)
Definition reported_count (eng : engine) (rc : Z) : Z :=
  match eng with
  | DFA => if rc =? 0 then 1 else rc
  | _ => rc
  end.

(** The most pairs the match routine of an engine reports into the buffer
    its block gives it: [pcre_exec] one for the whole match and one for
    each group, [pcre_dfa_exec] one, for a buffer of two integers. *)
Definition max_pairs (eng : engine) (ncaps : Z) : Z :=
  match eng with
  | DFA => 1
  | _ => ncaps + 1
  end.

(** How many calls a block makes: one when its buffer of [bytes] bytes
    cannot be allocated, two when [pcre_study] reports an error, three
    when the first reading of the clock fails, and otherwise five: the
    allocation, [pcre_study], the clock, the match routine and the clock
    again. *)
Definition block_calls (e : env) (bytes : Z) (re : pcre) (options : Z)
    (w : world) : nat :=
  if malloc e bytes then
    match snd (pcre_study e re options) with
    | Some _ => 2
    | None => if clock e (w_clock w) =? -1 then 3 else 5
    end
  else 1.

(** The token has the literal of an engine flag as a prefix. *)
Definition is_engine_flag (arg : string) : bool :=
  prefix "--default" arg || prefix "--jit" arg || prefix "--dfa" arg.











(** * Lemmas and theorems *)

(** ** Facts about the C helpers *)

Lemma Z_of_char_diff (c1 c2 : ascii) :
  c1 <> c2 -> Z_of_char c1 - Z_of_char c2 <> 0.
Proof.
  intros Hne Hz. apply Hne.
  unfold Z_of_char in Hz.
  assert (Hn : nat_of_ascii c1 = nat_of_ascii c2) by lia.
  rewrite <- (ascii_nat_embedding c1), <- (ascii_nat_embedding c2).
  now rewrite Hn.
Qed.

(** Against a literal, [strncmp] over the literal's length tests for a
    prefix. *)
Lemma strncmp_prefix (lit : string) :
  no_nul lit = true ->
  forall s, (strncmp s lit (String.length lit) =? 0) = prefix lit s.
Proof.
  induction lit as [| c lit IH]; intros Hnn s; [now destruct s |].
  simpl in Hnn. apply andb_true_iff in Hnn as [Hc Hnn].
  apply negb_true_iff in Hc. apply Ascii.eqb_neq in Hc.
  destruct s as [| c1 s];
    cbn [String.length strncmp prefix char_at0 cstr_tail].
  - destruct (Ascii.eqb_spec zero c) as [Heq | Hne]; [congruence |].
    cbn [negb]. apply Z.eqb_neq. now apply Z_of_char_diff.
  - destruct (ascii_dec c c1) as [Heq | Hne].
    + subst c1. rewrite Ascii.eqb_refl. cbn [negb].
      destruct (Ascii.eqb_spec c zero) as [Hz | _]; [congruence |].
      now apply IH.
    + destruct (Ascii.eqb_spec c1 c) as [Heq | Hne']; [congruence |].
      cbn [negb]. apply Z.eqb_neq. now apply Z_of_char_diff.
Qed.

Lemma to_unsigned_small (z : Z) : 0 <= z < 2 ^ 32 -> to_unsigned z = z.
Proof. intros H. unfold to_unsigned. now apply Z.mod_small. Qed.

Lemma to_int_small (z : Z) : - 2 ^ 31 <= z < 2 ^ 31 -> to_int z = z.
Proof. intros H. unfold to_int. rewrite Z.mod_small; lia. Qed.

Lemma to_size_t_small (z : Z) : 0 <= z < 2 ^ 64 -> to_size_t z = z.
Proof. intros H. unfold to_size_t. now apply Z.mod_small. Qed.

(** ** The option loop *)

Lemma classify_dash (arg : string) (k : option_kind) :
  classify arg = Some k -> Ascii.eqb (char_at0 arg) "-"%char = true.
Proof.
  unfold classify. destruct arg as [| c arg]; [discriminate |].
  cbn [prefix char_at0].
  destruct (ascii_dec "-" c) as [<- | Hne]; [reflexivity | discriminate].
Qed.

Lemma option_loop_cons (e : env) (arg : string) (rest : list string)
    (i flags engine_types : Z) :
  Ascii.eqb (char_at0 arg) "-"%char = true ->
  option_loop e (arg :: rest) i flags engine_types =
  match classify arg with
  | Some _ =>
      option_loop e rest (to_unsigned (i + 1)) (flags_step e flags arg)
                  (engines_step engine_types arg)
  | None => (eprintf ("unknown option: " ++ arg ++ "
") ;; exit 1)%harness
  end.
Proof.
  intros Hdash. cbn [option_loop]. rewrite Hdash. cbn [negb].
  unfold sizeof_lit_minus_1.
  rewrite (strncmp_prefix "--default" eq_refl).
  rewrite (strncmp_prefix "--jit" eq_refl).
  rewrite (strncmp_prefix "--dfa" eq_refl).
  change 2%nat with (String.length "-i").
  rewrite (strncmp_prefix "-i" eq_refl).
  unfold flags_step, engines_step, classify.
  destruct (prefix "--default" arg); [reflexivity |].
  destruct (prefix "--jit" arg); [reflexivity |].
  destruct (prefix "--dfa" arg); [reflexivity |].
  destruct (prefix "-i" arg); reflexivity.
Qed.

Lemma option_loop_app (e : env) (opts rest : list string) :
  forallb is_option opts = true ->
  forall i flags engine_types,
    option_loop e (opts ++ rest) i flags engine_types =
    option_loop e rest (index_after i opts) (flags_after e flags opts)
                (engines_after engine_types opts).
Proof.
  induction opts as [| arg opts IH]; intros Hall i flags et; [reflexivity |].
  cbn [forallb] in Hall. apply andb_true_iff in Hall as [Harg Hall].
  unfold is_option in Harg.
  destruct (classify arg) as [k |] eqn:Hk; [| discriminate].
  cbn [app]. rewrite option_loop_cons by exact (classify_dash arg k Hk).
  rewrite Hk. now rewrite IH.
Qed.

Lemma option_loop_stop (e : env) (rest : list string)
    (i flags engine_types : Z) :
  stops_at rest = true ->
  option_loop e rest i flags engine_types = ret (i, flags, engine_types).
Proof.
  destruct rest as [| arg rest]; [reflexivity |].
  cbn [stops_at option_loop]. now intros ->.
Qed.

Lemma index_after_length (opts : list string) :
  forall i, 0 <= i -> i + Z.of_nat (List.length opts) < 2 ^ 32 ->
            index_after i opts = i + Z.of_nat (List.length opts).
Proof.
  induction opts as [| arg opts IH]; intros i Hi Hlen;
    cbn [index_after fold_left List.length] in *; [lia |].
  fold (index_after (to_unsigned (i + 1)) opts).
  rewrite to_unsigned_small by lia. rewrite IH by lia. lia.
Qed.

(** ** [main] up to the option loop *)

Lemma main_short (e : env) (argv : list string) (w : world) :
  (List.length argv < 3)%nat ->
  main e argv w =
  (Exit 1, mkWorld (w_stdout w) (w_stderr w ++ usage_text) (w_errno w)
                   (w_clock w) (w_trace w)).
Proof.
  intros Hlen. unfold main.
  replace (Z.of_nat (List.length argv) <? 3) with true
    by (symmetry; apply Z.ltb_lt; lia).
  reflexivity.
Qed.

Lemma main_options (e : env) (prog : string) (opts rest : list string) :
  forallb is_option opts = true ->
  stops_at rest = true ->
  (3 <= List.length (prog :: opts ++ rest))%nat ->
  main e (prog :: opts ++ rest) =
  after_options e (prog :: opts ++ rest) (index_after 1 opts)
                (flags_after e 0 opts) (engines_after 0 opts).
Proof.
  intros Hopts Hstop Hlen. unfold main.
  replace (Z.of_nat (List.length (prog :: opts ++ rest)) <? 3) with false
    by (symmetry; apply Z.ltb_ge; lia).
  cbn [skipn]. rewrite option_loop_app by assumption.
  rewrite option_loop_stop by assumption. reflexivity.
Qed.

Lemma caseless_is_option (opts : list string) :
  forallb is_caseless opts = true -> forallb is_option opts = true.
Proof.
  induction opts as [| arg opts IH]; [reflexivity |].
  cbn [forallb]. intros H. apply andb_true_iff in H as [Ha Hall].
  apply andb_true_iff. split; [| now apply IH].
  unfold is_caseless, is_option in *. now destruct (classify arg).
Qed.

Lemma caseless_no_engine (opts : list string) :
  forallb is_caseless opts = true ->
  forall engine_types, engines_after engine_types opts = engine_types.
Proof.
  induction opts as [| arg opts IH]; [reflexivity |].
  cbn [forallb]. intros H et. apply andb_true_iff in H as [Ha Hall].
  cbn [engines_after fold_left]. fold (engines_after (engines_step et arg) opts).
  rewrite IH by assumption.
  unfold is_caseless in Ha. unfold engines_step.
  destruct (classify arg) as [[| | |] |]; now try discriminate.
Qed.

Lemma after_options_no_engine (e : env) (argv : list string) (i flags : Z)
    (w : world) :
  after_options e argv i flags 0 w =
  (Exit 1, mkWorld (w_stdout w) (w_stderr w ++ "No engine specified.
") (w_errno w) (w_clock w) (w_trace w)).
Proof. reflexivity. Qed.

Lemma process_no_engine (e : env) (prog : string) (opts rest : list string) :
  forallb is_option opts = true ->
  stops_at rest = true ->
  engines_after 0 opts = 0 ->
  (3 <= List.length (prog :: opts ++ rest))%nat ->
  process e (prog :: opts ++ rest) =
  (Exit 1, mkWorld "" "No engine specified.
" 0 0 []).
Proof.
  intros Hopts Hstop Hnone Hlen. unfold process.
  rewrite main_options by assumption.
  rewrite Hnone. now rewrite after_options_no_engine.
Qed.

Lemma process_short (e : env) (argv : list string) :
  (List.length argv < 3)%nat ->
  process e argv = (Exit 1, mkWorld "" usage_text 0 0 []).
Proof.
  intros Hlen. unfold process. now rewrite main_short.
Qed.

(** With an engine selected, a number of positional arguments other than
    two gives the usage text. *)
Lemma process_bad_count (e : env) (prog : string) (opts rest : list string) :
  forallb is_option opts = true ->
  stops_at rest = true ->
  engines_after 0 opts <> 0 ->
  (3 <= List.length (prog :: opts ++ rest))%nat ->
  Z.of_nat (List.length (prog :: opts ++ rest)) <= INT_MAX ->
  List.length rest <> 2%nat ->
  process e (prog :: opts ++ rest) =
  (Exit 1, mkWorld "" usage_text 0 0 []).
Proof.
  intros Hopts Hstop Hsome Hlen Hmax Hrest. unfold process.
  rewrite main_options by assumption.
  unfold after_options.
  apply Z.eqb_neq in Hsome. unfold INT_MAX in Hmax.
  cbn [List.length] in Hmax. rewrite length_app in Hmax.
  rewrite index_after_length by lia.
  unfold bind at 1. rewrite Hsome. cbn [when ret].
  unfold bind at 1.
  replace (to_unsigned (Z.of_nat (List.length (prog :: opts ++ rest)) -
                        (1 + Z.of_nat (List.length opts))) =? 2) with false.
  - reflexivity.
  - symmetry. apply Z.eqb_neq. cbn [List.length]. rewrite length_app.
    rewrite to_unsigned_small by lia. lia.
Qed.

(** ** Argument parsing: the properties *)

(** C10: with fewer than two arguments after the program name the usage
    text and status 1 come first, whatever the arguments are; otherwise
    the missing-engine check comes before the count of positional
    arguments: without an engine flag a wrong number of positional
    arguments still gives "No engine specified.", as for [-i foo], and
    with an engine flag it gives the usage text. *)
Theorem C10_argument_error_precedence (e : env) :
  (forall argv,
      (List.length argv < 3)%nat ->
      process e argv = (Exit 1, mkWorld "" usage_text 0 0 []))
  /\ (forall prog opts rest,
         forallb is_caseless opts = true ->
         stops_at rest = true ->
         (3 <= List.length (prog :: opts ++ rest))%nat ->
         List.length rest <> 2%nat ->
         process e (prog :: opts ++ rest) =
         (Exit 1, mkWorld "" "No engine specified.
" 0 0 []))
  /\ (forall prog opts rest,
         forallb is_option opts = true ->
         stops_at rest = true ->
         engines_after 0 opts <> 0 ->
         (3 <= List.length (prog :: opts ++ rest))%nat ->
         Z.of_nat (List.length (prog :: opts ++ rest)) <= INT_MAX ->
         List.length rest <> 2%nat ->
         process e (prog :: opts ++ rest) =
         (Exit 1, mkWorld "" usage_text 0 0 []))
  /\ process e ["sregex"; "-i"; "foo"] =
     (Exit 1, mkWorld "" "No engine specified.
" 0 0 []).
Proof.
  split; [| split; [| split]].
  - intros argv Hlen. now apply process_short.
  - intros prog opts rest Hopts Hstop Hlen _.
    apply process_no_engine; try assumption.
    + now apply caseless_is_option.
    + now apply caseless_no_engine.
  - intros prog opts rest. apply process_bad_count.
  - apply (process_no_engine e "sregex" ["-i"] ["foo"]); reflexivity.
Qed.

Lemma C10_argument_error_precedence_witness :
  process sample_env ["sregex"; "--default"] =
  (Exit 1, mkWorld "" usage_text 0 0 [])
  /\ process sample_env ["sregex"; "-i"; "-i"; "foo"] =
     (Exit 1, mkWorld "" "No engine specified.
" 0 0 [])
  /\ process sample_env ["sregex"; "--jit"; "foo"] =
     (Exit 1, mkWorld "" usage_text 0 0 []).
Proof.
  destruct (C10_argument_error_precedence sample_env) as (Ha & Hb & Hc & _).
  split; [| split].
  - apply (Ha ["sregex"; "--default"]). cbn. lia.
  - apply (Hb "sregex" ["-i"; "-i"] ["foo"]).
    + reflexivity.
    + reflexivity.
    + cbn. lia.
    + cbn. lia.
  - apply (Hc "sregex" ["--jit"] ["foo"]).
    + reflexivity.
    + reflexivity.
    + vm_compute. discriminate.
    + cbn. lia.
    + vm_compute. discriminate.
    + cbn. lia.
Defined.

Lemma classify_extension (sfx : string) :
  classify ("--default" ++ sfx) = Some OptDefault
  /\ classify ("--jit" ++ sfx) = Some OptJit
  /\ classify ("--dfa" ++ sfx) = Some OptDfa
  /\ classify ("-i" ++ sfx) = Some OptCaseless.
Proof. now destruct sfx. Qed.

Lemma option_loop_same_kind (e : env) (arg arg' : string)
    (rest : list string) (i flags engine_types : Z) (k : option_kind) :
  classify arg = Some k ->
  classify arg' = Some k ->
  option_loop e (arg :: rest) i flags engine_types =
  option_loop e (arg' :: rest) i flags engine_types.
Proof.
  intros Hk Hk'.
  rewrite !option_loop_cons by (eapply classify_dash; eassumption).
  unfold flags_step, engines_step. now rewrite Hk, Hk'.
Qed.

(** C5, as the code has it: a token in option position that begins with a
    dash and has none of [--default], [--jit], [--dfa], [-i] as a prefix
    ends the process at once with status 1 and "unknown option: <token>"
    on standard error; a token that extends one of the four literals is
    taken for that option. *)
Theorem C5_unknown_option (e : env) :
  (forall prog opts arg rest,
      forallb is_option opts = true ->
      Ascii.eqb (char_at0 arg) "-"%char = true ->
      classify arg = None ->
      (3 <= List.length (prog :: opts ++ arg :: rest))%nat ->
      process e (prog :: opts ++ arg :: rest) =
      (Exit 1, mkWorld "" ("unknown option: " ++ arg ++ "
") 0 0 []))
  /\ (forall sfx rest i flags engine_types,
         option_loop e (("--default" ++ sfx)%string :: rest) i flags
                     engine_types =
         option_loop e ("--default" :: rest) i flags engine_types
         /\ option_loop e (("--jit" ++ sfx)%string :: rest) i flags
                        engine_types =
            option_loop e ("--jit" :: rest) i flags engine_types
         /\ option_loop e (("--dfa" ++ sfx)%string :: rest) i flags
                        engine_types =
            option_loop e ("--dfa" :: rest) i flags engine_types
         /\ option_loop e (("-i" ++ sfx)%string :: rest) i flags
                        engine_types =
            option_loop e ("-i" :: rest) i flags engine_types).
Proof.
  split.
  - intros prog opts arg rest Hopts Hdash Hnone Hlen.
    unfold process, main.
    replace (Z.of_nat (List.length (prog :: opts ++ arg :: rest)) <? 3)
      with false by (symmetry; apply Z.ltb_ge; lia).
    cbn [skipn]. rewrite option_loop_app by assumption.
    rewrite option_loop_cons by assumption. rewrite Hnone. reflexivity.
  - intros sfx rest i flags et.
    destruct (classify_extension sfx) as (Hd & Hj & Hf & Hi).
    repeat split; eapply option_loop_same_kind;
      solve [eassumption | reflexivity].
Qed.

Lemma C5_unknown_option_witness :
  process sample_env ["sregex"; "--jit"; "-x"; "abc"; "in.txt"] =
  (Exit 1, mkWorld "" "unknown option: -x
" 0 0 []).
Proof.
  apply (proj1 (C5_unknown_option sample_env)
               "sregex" ["--jit"] "-x" ["abc"; "in.txt"]).
  - reflexivity.
  - reflexivity.
  - reflexivity.
  - cbn. lia.
Defined.

(** C5 as stated fails: [--defaultxyz] and [-ix] are not rejected; the run
    is the run of [--default -i], which ends with status 0. *)
Lemma C5_counterexample :
  process sample_env ["sregex"; "--defaultxyz"; "-ix"; "abc"; "in.txt"] =
  process sample_env ["sregex"; "--default"; "-i"; "abc"; "in.txt"]
  /\ process sample_env ["sregex"; "--defaultxyz"; "-ix"; "abc"; "in.txt"] =
     (Exit 0,
      mkWorld "pcre default match (0, 3): 7 clock units elapsed.
(1 clock unit is 0.000001 sec)
" "" 0 2
        [EvCompile "abc" 1; EvFullinfo 11%nat 2; EvFopen "in.txt";
         EvFseekEnd; EvFtell; EvFseekSet; EvMalloc 6; EvFread 6; EvFclose;
         EvMalloc 12; EvStudy 11%nat 0; EvClock;
         EvExec 11%nat 0%nat
           [Byte.x41; Byte.x42; Byte.x43; Byte.x58; Byte.x59; Byte.x5a]
           6 0 0 3;
         EvClock]).
Proof. split; vm_compute; reflexivity. Qed.

(** ** [main] with well-formed arguments *)

Lemma argv_at_positional (prog : string) (opts rest : list string) (k : nat) :
  argv_at (prog :: opts ++ rest) (1 + Z.of_nat (List.length opts + k)) =
  nth k rest "".
Proof.
  unfold argv_at.
  replace (Z.to_nat (1 + Z.of_nat (List.length opts + k)))
    with (S (List.length opts + k)) by lia.
  cbn [nth]. rewrite app_nth2 by lia. f_equal. lia.
Qed.

(** With an engine selected and exactly two positional arguments, [main]
    goes on to compile the first and to load the second. *)
Lemma after_options_two (e : env) (prog : string) (opts : list string)
    (pattern path : string) (flags engine_types : Z) :
  engine_types <> 0 ->
  Z.of_nat (List.length (prog :: opts ++ [pattern; path])) <= INT_MAX ->
  after_options e (prog :: opts ++ [pattern; path])
                (1 + Z.of_nat (List.length opts)) flags engine_types =
  (r <- c_pcre_compile e pattern flags ;;
   match r with
   | inr (errstr, err_offset) =>
       eprintf ("[error] pos " ++ fmt_d err_offset ++ ": " ++ errstr ++ "
") ;;
       ret 2
   | inl re =>
       '(rc, ncaps) <- c_pcre_fullinfo e re (PCRE_INFO_CAPTURECOUNT e) ;;
       if rc <? 0 then eprintf "failed to get capture count.
" ;; ret 2
       else load_and_run e re engine_types ncaps path
   end)%harness.
Proof.
  intros Hsome Hmax. unfold after_options.
  apply Z.eqb_neq in Hsome. rewrite Hsome.
  unfold INT_MAX in Hmax. cbn [List.length] in Hmax.
  rewrite length_app in Hmax. cbn [List.length] in Hmax.
  replace (to_unsigned
             (Z.of_nat (List.length (prog :: opts ++ [pattern; path])) -
              (1 + Z.of_nat (List.length opts))) =? 2) with true.
  - rewrite to_unsigned_small by lia.
    pose proof (argv_at_positional prog opts [pattern; path] 0) as Hpat.
    pose proof (argv_at_positional prog opts [pattern; path] 1) as Hpath.
    rewrite Nat.add_0_r in Hpat. cbn [nth] in Hpat, Hpath.
    replace (1 + Z.of_nat (List.length opts) + 1)
      with (1 + Z.of_nat (List.length opts + 1)) by lia.
    rewrite Hpat, Hpath. reflexivity.
  - symmetry. apply Z.eqb_eq. cbn [List.length]. rewrite length_app.
    cbn [List.length]. rewrite to_unsigned_small by lia. lia.
Qed.

Lemma main_two_positionals (e : env) (prog : string) (opts : list string)
    (pattern path : string) :
  forallb is_option opts = true ->
  Ascii.eqb (char_at0 pattern) "-"%char = false ->
  engines_after 0 opts <> 0 ->
  Z.of_nat (List.length (prog :: opts ++ [pattern; path])) <= INT_MAX ->
  main e (prog :: opts ++ [pattern; path]) =
  (r <- c_pcre_compile e pattern (flags_after e 0 opts) ;;
   match r with
   | inr (errstr, err_offset) =>
       eprintf ("[error] pos " ++ fmt_d err_offset ++ ": " ++ errstr ++ "
") ;;
       ret 2
   | inl re =>
       '(rc, ncaps) <- c_pcre_fullinfo e re (PCRE_INFO_CAPTURECOUNT e) ;;
       if rc <? 0 then eprintf "failed to get capture count.
" ;; ret 2
       else load_and_run e re (engines_after 0 opts) ncaps path
   end)%harness.
Proof.
  intros Hopts Hpat Hsome Hmax.
  rewrite main_options.
  - unfold INT_MAX in Hmax.
    assert (Hlen : Z.of_nat (List.length opts) < 2 ^ 31).
    { cbn [List.length] in Hmax. rewrite length_app in Hmax. lia. }
    rewrite index_after_length by lia.
    now apply after_options_two.
  - assumption.
  - cbn [stops_at]. now rewrite Hpat.
  - cbn [List.length]. rewrite length_app. cbn [List.length]. lia.
Qed.

(** C9: the pattern is compiled before the file is opened.  With
    well-formed arguments and a pattern that does not compile, the process
    prints the position and the message on standard error and exits with
    status 2; the only external call made is the call of [pcre_compile],
    so no attempt was made to open the file, whether it exists or not. *)
Theorem C9_compile_before_open (e : env) (prog : string)
    (opts : list string) (pattern path errstr : string) (err_offset : Z) :
  forallb is_option opts = true ->
  Ascii.eqb (char_at0 pattern) "-"%char = false ->
  engines_after 0 opts <> 0 ->
  Z.of_nat (List.length (prog :: opts ++ [pattern; path])) <= INT_MAX ->
  pcre_compile e pattern (flags_after e 0 opts) = inr (errstr, err_offset) ->
  process e (prog :: opts ++ [pattern; path]) =
  (Exit 2,
   mkWorld "" ("[error] pos " ++ fmt_d err_offset ++ ": " ++ errstr ++ "
") 0 0 [EvCompile pattern (flags_after e 0 opts)]).
Proof.
  intros Hopts Hpat Hsome Hmax Hcompile.
  unfold process. rewrite main_two_positionals by assumption.
  unfold c_pcre_compile, bind, emit, ret, eprintf. cbn.
  rewrite Hcompile. reflexivity.
Qed.

Lemma C9_compile_before_open_witness :
  fopen sample_env "missing.txt" = inr 2
  /\ process sample_env ["sregex"; "--default"; "("; "missing.txt"] =
     (Exit 2, mkWorld "" "[error] pos 1: missing )
" 0 0 [EvCompile "(" 0]).
Proof.
  split; [reflexivity |].
  apply (C9_compile_before_open sample_env "sregex" ["--default"]
                                "(" "missing.txt" "missing )" 1).
  - reflexivity.
  - reflexivity.
  - vm_compute. discriminate.
  - vm_compute. discriminate.
  - reflexivity.
Defined.

(** ** The three engine blocks, uniformly *)

Lemma default_block_eq (e : env) :
  default_block e = engine_block e Default.
Proof. reflexivity. Qed.

Lemma jit_block_eq (e : env) : jit_block e = engine_block e JIT.
Proof. reflexivity. Qed.

Lemma dfa_block_eq (e : env) : dfa_block e = engine_block e DFA.
Proof. reflexivity. Qed.

Lemma run_engines_eq (e : env) (re : pcre) (engine_types ncaps : Z)
    (input : list byte) (len : Z) (w : world) :
  run_engines e re engine_types ncaps input len w =
  (run_blocks e (selected_engines engine_types) re ncaps input len ;;
   printf (footer_text e))%harness w.
Proof.
  unfold run_engines, selected_engines, selected. cbn [filter engine_bit].
  rewrite default_block_eq, jit_block_eq, dfa_block_eq.
  destruct (negb (Z.land engine_types ENGINE_DEFAULT =? 0));
    destruct (negb (Z.land engine_types ENGINE_JIT =? 0));
    destruct (negb (Z.land engine_types ENGINE_DFA =? 0));
    cbn [when run_blocks]; unfold bind, ret;
    repeat match goal with
           | |- context [match ?m w with _ => _ end] => destruct (m w) as [[] ?]
           | |- context [match ?m ?w' with _ => _ end] =>
               destruct (m w') as [[] ?]
           end; reflexivity.
Qed.

(** ** The world after a block *)

Lemma string_app_assoc (a b c : string) :
  ((a ++ b) ++ c = a ++ (b ++ c))%string.
Proof. induction a as [| x a IH]; cbn; [reflexivity | now rewrite IH]. Qed.

Lemma string_app_nil_r (a : string) : (a ++ "" = a)%string.
Proof. induction a as [| x a IH]; cbn; [reflexivity | now rewrite IH]. Qed.

Lemma extends_refl (w : world) : extends w w "" "" [].
Proof.
  split; rewrite ?string_app_nil_r, ?app_nil_r; reflexivity.
Qed.

Lemma extends_trans (w1 w2 w3 : world) (out1 out2 err1 err2 : string)
    (tr1 tr2 : list event) :
  extends w1 w2 out1 err1 tr1 ->
  extends w2 w3 out2 err2 tr2 ->
  extends w1 w3 (out1 ++ out2) (err1 ++ err2) (tr1 ++ tr2).
Proof.
  intros [Ho1 He1 Hn1 Ht1] [Ho2 He2 Hn2 Ht2]. split.
  - now rewrite Ho2, Ho1, string_app_assoc.
  - now rewrite He2, He1, string_app_assoc.
  - now rewrite Hn2.
  - now rewrite Ht2, Ht1, app_assoc.
Qed.

Lemma print_pairs_extends (ovector : list Z) (count : nat) :
  forall n w,
    (fst (print_pairs count n ovector w) = Ret tt
     \/ fst (print_pairs count n ovector w) = Undef)
    /\ exists out,
        extends w (snd (print_pairs count n ovector w)) out "" [].
Proof.
  induction count as [| count IH]; intros n w.
  - split; [now left |]. exists ""%string. apply extends_refl.
  - cbn [print_pairs]. unfold bind, read_int, undef, ret.
    destruct (n <? 0);
      [split; [now right | exists ""%string; apply extends_refl] |].
    destruct (nth_error ovector (Z.to_nat n)) as [a |];
      [| split; [now right | exists ""%string; apply extends_refl]].
    destruct (n + 1 <? 0);
      [split; [now right | exists ""%string; apply extends_refl] |].
    destruct (nth_error ovector (Z.to_nat (n + 1))) as [b |];
      [| split; [now right | exists ""%string; apply extends_refl]].
    cbn [printf].
    match goal with
    | |- context [print_pairs count (n + 2) ovector ?w1] =>
        destruct (IH (n + 2) w1) as [Hfst [out Hext]];
        destruct (print_pairs count (n + 2) ovector w1) as [o w2]
    end.
    cbn [fst snd] in *.
    split.
    + destruct Hfst as [-> | ->]; [now left | now right].
    + exists ((" (" ++ fmt_d a ++ ", " ++ fmt_d b ++ ")") ++ out)%string.
      destruct Hext as [Ho He Hn Ht].
      cbn [w_stdout w_stderr w_errno w_trace] in Ho, He, Hn, Ht.
      split; cbn [w_stdout w_stderr w_errno w_trace].
      * now rewrite Ho, string_app_assoc.
      * assumption.
      * assumption.
      * assumption.
Qed.

(** Running the monad: its operations are unfolded and the projections of
    the worlds they build are reduced. *)
Ltac run_monad :=
  cbv beta iota zeta delta
    [bind ret emit assert abort undef exit when printf eprintf perror
     perror_text set_errno c_malloc c_pcre_compile c_pcre_fullinfo
     c_pcre_study c_clock c_pcre_exec c_pcre_dfa_exec engine_exec usage];
  repeat progress cbn [w_stdout w_stderr w_errno w_clock w_trace fst snd].

(** The block, case by case. *)
Lemma engine_block_unfold (e : env) (eng : engine) (re : pcre) (ncaps : Z)
    (input : list byte) (len : Z) (w : world) :
  engine_block e eng re ncaps input len w =
  let ev := engine_events e eng re ncaps input len in
  let named := (w_stdout w ++ engine_name eng)%string in
  if malloc e (to_size_t (engine_ovecsize eng ncaps * sizeof_int)) then
    match snd (pcre_study e re (study_options e eng)) with
    | Some msg =>
        (Exit 2,
         mkWorld named (w_stderr w ++ ("failed to study the regex: " ++ msg))
                 (w_errno w) (w_clock w) (w_trace w ++ firstn 2 ev))
    | None =>
        let begin := clock e (w_clock w) in
        if begin =? -1 then
          (Exit 2,
           mkWorld named (w_stderr w ++ perror_text e "clock" w)
                   (w_errno w) (S (w_clock w)) (w_trace w ++ firstn 3 ev))
        else
          let r := engine_answer e eng re
                     (fst (pcre_study e re (study_options e eng)))
                     input len (engine_ovecsize eng ncaps) in
          let elapsed := to_long (clock e (S (w_clock w)) - begin) in
          if elapsed <? 0 then
            (Exit 2,
             mkWorld named (w_stderr w ++ perror_text e "clock" w)
                     (w_errno w) (S (S (w_clock w))) (w_trace w ++ ev))
          else
            after_match e eng (fst r) (snd r) elapsed
              (mkWorld named (w_stderr w) (w_errno w) (S (S (w_clock w)))
                       (w_trace w ++ ev))
    end
  else
    (Abort,
     mkWorld (w_stdout w)
             (w_stderr w ++
              assert_text e "ovector" "run_engines" (assert_line eng))
             (w_errno w) (w_clock w) (w_trace w ++ firstn 1 ev)).
Proof.
  unfold engine_block, engine_events, engine_answer, after_match.
  run_monad. cbn [firstn].
  destruct (malloc e (to_size_t (engine_ovecsize eng ncaps * sizeof_int)));
    [| reflexivity].
  destruct (pcre_study e re (study_options e eng)) as [extra [msg |]];
    run_monad.
  - rewrite <- app_assoc. reflexivity.
  - destruct (clock e (w_clock w) =? -1).
    + rewrite <- !app_assoc. reflexivity.
    + destruct eng; run_monad;
        match goal with
        | |- context [pcre_exec ?a ?b ?c ?d ?f ?g] =>
            destruct (pcre_exec a b c d f g) as [rc ov]
        | |- context [pcre_dfa_exec ?a ?b ?c ?d ?f ?g ?h] =>
            destruct (pcre_dfa_exec a b c d f g h) as [rc ov]
        end;
        run_monad;
        rewrite <- !app_assoc; cbn [app];
        match goal with
        | |- context [if ?c <? 0 then _ else _] => destruct (c <? 0)
        end; reflexivity.
Qed.

Lemma extends_mk (w : world) (out err : string) (k : nat)
    (tr : list event) :
  extends w (mkWorld (w_stdout w ++ out) (w_stderr w ++ err) (w_errno w) k
                     (w_trace w ++ tr)) out err tr.
Proof. split; reflexivity. Qed.

Lemma extends_out (w : world) (out : string) :
  extends w (mkWorld (w_stdout w ++ out) (w_stderr w) (w_errno w)
                     (w_clock w) (w_trace w)) out "" [].
Proof.
  split; cbn [w_stdout w_stderr w_errno w_trace];
    rewrite ?string_app_nil_r, ?app_nil_r; reflexivity.
Qed.

(** A negative return value: the code is printed on standard output, after
    "no match" when it is the no-match value, and the process exits. *)
Lemma report_negative (e : env) (rc : Z) (ovector : list Z) (elapsed : Z)
    (w : world) :
  rc < 0 ->
  report e rc ovector elapsed w =
  (Exit 2,
   mkWorld (w_stdout w ++
            ((if rc =? PCRE_ERROR_NOMATCH e then "no match" else "") ++
             error_text rc))
           (w_stderr w) (w_errno w) (w_clock w) (w_trace w)).
Proof.
  intros Hneg. unfold report.
  apply Z.ltb_lt in Hneg. rewrite Hneg.
  destruct (rc =? PCRE_ERROR_NOMATCH e); run_monad.
  - now rewrite string_app_assoc.
  - reflexivity.
Qed.

Lemma report_nonneg (e : env) (rc : Z) (ovector : list Z) (elapsed : Z)
    (w : world) :
  0 <= rc ->
  (fst (report e rc ovector elapsed w) = Ret tt
   /\ exists body,
       extends w (snd (report e rc ovector elapsed w))
               (body ++ elapsed_text elapsed) "" [])
  \/ (fst (report e rc ovector elapsed w) = Undef
      /\ exists out,
          extends w (snd (report e rc ovector elapsed w)) out "" []).
Proof.
  intros Hpos. unfold report.
  apply Z.ltb_ge in Hpos. rewrite Hpos.
  destruct (rc =? PCRE_ERROR_NOMATCH e); destruct (rc >? 0); run_monad;
    try match goal with
      | |- context [print_pairs ?c ?n ?ov ?w1] =>
          destruct (print_pairs_extends ov c n w1) as [Hfst [out Hext]];
          destruct (print_pairs c n ov w1) as [o w2];
          cbn [fst snd] in Hfst, Hext;
          destruct Hext as [Ho He Hn Ht];
          cbn [w_stdout w_stderr w_errno w_trace] in Ho, He, Hn, Ht;
          destruct Hfst as [-> | ->]; cbn [fst snd]; [left | right];
          (split; [reflexivity |])
      end.
  - exists ("no match" ++ "match" ++ out)%string.
    split; cbn [w_stdout w_stderr w_errno w_trace]; try assumption.
    rewrite Ho, !string_app_assoc. reflexivity.
  - exists ("no match" ++ "match" ++ out)%string.
    split; cbn [w_stdout w_stderr w_errno w_trace]; try assumption.
    rewrite Ho, !string_app_assoc. reflexivity.
  - left. split; [reflexivity |]. exists "no match"%string.
    split; cbn [w_stdout w_stderr w_errno w_trace];
      rewrite ?string_app_nil_r, ?app_nil_r, ?string_app_assoc; reflexivity.
  - exists ("match" ++ out)%string.
    split; cbn [w_stdout w_stderr w_errno w_trace]; try assumption.
    rewrite Ho, !string_app_assoc. reflexivity.
  - exists ("match" ++ out)%string.
    split; cbn [w_stdout w_stderr w_errno w_trace]; try assumption.
    rewrite Ho, !string_app_assoc. reflexivity.
  - left. split; [reflexivity |]. exists ""%string.
    split; cbn [w_stdout w_stderr w_errno w_trace];
      rewrite ?string_app_nil_r, ?app_nil_r; reflexivity.
Qed.

Lemma report_summary (e : env) (rc : Z) (ovector : list Z) (elapsed : Z)
    (w : world) :
  exists out err,
    extends w (snd (report e rc ovector elapsed w)) out err []
    /\ (fst (report e rc ovector elapsed w) = Ret tt ->
        err = ""%string
        /\ exists body, out = (body ++ elapsed_text elapsed)%string)
    /\ (forall s,
           fst (report e rc ovector elapsed w) = Exit s ->
           s = 2
           /\ err = ""%string
           /\ exists pre rc',
               rc' < 0 /\ out = (pre ++ error_text rc')%string).
Proof.
  destruct (Z.lt_ge_cases rc 0) as [Hneg | Hpos].
  - rewrite report_negative by assumption. cbn [fst snd].
    eexists. exists ""%string.
    split; [apply extends_out |].
    split; [discriminate |].
    intros s [= <-]. split; [reflexivity |]. split; [reflexivity |].
    eexists. exists rc. split; [assumption | reflexivity].
  - destruct (report_nonneg e rc ovector elapsed w Hpos)
      as [[Hfst [body Hext]] | [Hfst [out Hext]]].
    + exists (body ++ elapsed_text elapsed)%string, ""%string.
      split; [assumption |]. rewrite Hfst.
      split; [| discriminate].
      intros _. split; [reflexivity |]. now exists body.
    + exists out, ""%string.
      split; [assumption |]. rewrite Hfst.
      split; discriminate.
Qed.

Lemma after_match_summary (e : env) (eng : engine) (rc : Z)
    (ovector : list Z) (elapsed : Z) (w : world) :
  exists out err,
    extends w (snd (after_match e eng rc ovector elapsed w)) out err []
    /\ (fst (after_match e eng rc ovector elapsed w) = Ret tt ->
        err = ""%string
        /\ exists body, out = (body ++ elapsed_text elapsed)%string)
    /\ (forall s,
           fst (after_match e eng rc ovector elapsed w) = Exit s ->
           s = 2
           /\ (err <> ""%string
               \/ (err = ""%string
                   /\ exists pre rc',
                       rc' < 0 /\ out = (pre ++ error_text rc')%string))).
Proof.
  assert (Hreport : forall rc0,
    exists out err,
      extends w (snd (report e rc0 ovector elapsed w)) out err []
      /\ (fst (report e rc0 ovector elapsed w) = Ret tt ->
          err = ""%string
          /\ exists body, out = (body ++ elapsed_text elapsed)%string)
      /\ (forall s,
             fst (report e rc0 ovector elapsed w) = Exit s ->
             s = 2
             /\ (err <> ""%string
                 \/ (err = ""%string
                     /\ exists pre rc',
                         rc' < 0 /\ out = (pre ++ error_text rc')%string)))).
  { intros rc0.
    destruct (report_summary e rc0 ovector elapsed w)
      as (out & err & Hext & Hret & Hexit).
    exists out, err. split; [assumption |]. split; [assumption |].
    intros s Hs. destruct (Hexit s Hs) as (-> & Herr & Hout).
    split; [reflexivity |]. right. now split. }
  assert (Hsmall :
    exists out err,
      extends w (snd ((eprintf "capture size too small" ;; exit 2)%harness w
                      : outcome unit * world)) out err []
      /\ (fst ((eprintf "capture size too small" ;; exit 2)%harness w
               : outcome unit * world) = Ret tt ->
          err = ""%string
          /\ exists body, out = (body ++ elapsed_text elapsed)%string)
      /\ (forall s,
             fst ((eprintf "capture size too small" ;; exit 2)%harness w
                  : outcome unit * world) = Exit s ->
             s = 2
             /\ (err <> ""%string
                 \/ (err = ""%string
                     /\ exists pre rc',
                         rc' < 0 /\ out = (pre ++ error_text rc')%string)))).
  { exists ""%string, "capture size too small"%string. run_monad.
    split; [| split].
    - split; cbn [w_stdout w_stderr w_errno w_trace];
        rewrite ?string_app_nil_r, ?app_nil_r; reflexivity.
    - discriminate.
    - intros s [= <-]. split; [reflexivity |]. left. discriminate. }
  destruct eng; cbn [after_match];
    try (destruct (rc =? 0); [exact Hsmall | apply Hreport]).
  apply Hreport.
Qed.

Lemma is_prefix_firstn {A} (k : nat) (l : list A) : is_prefix (firstn k l) l.
Proof. exists (skipn k l). symmetry. apply firstn_skipn. Qed.

Lemma is_prefix_refl {A} (l : list A) : is_prefix l l.
Proof. exists []. now rewrite app_nil_r. Qed.

(** What a block leaves behind, whatever its outcome: its calls are an
    initial part of [engine_events], beginning with the allocation; when
    it returns the calls are all made and one line is printed; when it
    exits the status is 2, and either standard error was written or the
    code of a negative return value was printed on standard output. *)
Lemma engine_block_summary (e : env) (eng : engine) (re : pcre) (ncaps : Z)
    (input : list byte) (len : Z) (w : world) :
  exists out err tr,
    extends w (snd (engine_block e eng re ncaps input len w)) out err tr
    /\ is_prefix tr (engine_events e eng re ncaps input len)
    /\ (exists tr',
           tr = EvMalloc (to_size_t (engine_ovecsize eng ncaps * sizeof_int))
                  :: tr')
    /\ (fst (engine_block e eng re ncaps input len w) = Ret tt ->
        tr = engine_events e eng re ncaps input len
        /\ err = ""%string
        /\ exists body elapsed,
            out = (engine_name eng ++ body ++ elapsed_text elapsed)%string)
    /\ (forall s,
           fst (engine_block e eng re ncaps input len w) = Exit s ->
           s = 2
           /\ (err <> ""%string
               \/ (err = ""%string
                   /\ exists pre rc,
                       rc < 0 /\ out = (pre ++ error_text rc)%string))).
Proof.
  rewrite engine_block_unfold. cbv zeta.
  set (ev := engine_events e eng re ncaps input len).
  assert (Hhead : forall k, (1 <= k)%nat ->
            exists tr',
              firstn k ev =
              EvMalloc (to_size_t (engine_ovecsize eng ncaps * sizeof_int))
                :: tr').
  { intros [| k] Hk; [lia |]. subst ev. unfold engine_events.
    cbn [firstn]. eexists. reflexivity. }
  destruct (malloc e (to_size_t (engine_ovecsize eng ncaps * sizeof_int))).
  2: { exists ""%string,
         (assert_text e "ovector" "run_engines" (assert_line eng)),
         (firstn 1 ev).
       cbn [fst snd].
       split; [| split; [| split; [| split]]].
       - split; cbn [w_stdout w_stderr w_errno w_trace];
           rewrite ?string_app_nil_r; reflexivity.
       - apply is_prefix_firstn.
       - now apply Hhead.
       - discriminate.
       - discriminate. }
  destruct (snd (pcre_study e re (study_options e eng))) as [msg |].
  { exists (engine_name eng), ("failed to study the regex: " ++ msg)%string,
      (firstn 2 ev). cbn [fst snd].
    split; [| split; [| split; [| split]]].
    - apply extends_mk.
    - apply is_prefix_firstn.
    - apply Hhead. lia.
    - discriminate.
    - intros s [= <-]. split; [reflexivity |]. left. discriminate. }
  destruct (clock e (w_clock w) =? -1).
  { exists (engine_name eng), (perror_text e "clock" w), (firstn 3 ev).
    cbn [fst snd].
    split; [| split; [| split; [| split]]].
    - apply extends_mk.
    - apply is_prefix_firstn.
    - apply Hhead. lia.
    - discriminate.
    - intros s [= <-]. split; [reflexivity |]. left. discriminate. }
  match goal with
  | |- context [if ?c <? 0 then _ else _] => destruct (c <? 0)
  end.
  { exists (engine_name eng), (perror_text e "clock" w), ev.
    cbn [fst snd].
    split; [| split; [| split; [| split]]].
    - apply extends_mk.
    - apply is_prefix_refl.
    - apply (Hhead 5%nat). lia.
    - discriminate.
    - intros s [= <-]. split; [reflexivity |]. left. discriminate. }
  match goal with
  | |- context [after_match e eng ?rc ?ov ?el ?w1] =>
      destruct (after_match_summary e eng rc ov el w1)
        as (out & err & Hext & Hret & Hexit);
      destruct (after_match e eng rc ov el w1) as [o w2];
      pose (elapsed := el)
  end.
  cbn [fst snd] in *.
  exists (engine_name eng ++ out)%string, err, ev.
  split; [| split; [| split; [| split]]].
  - destruct Hext as [Ho He Hn Ht].
    cbn [w_stdout w_stderr w_errno w_trace] in Ho, He, Hn, Ht.
    split.
    + now rewrite Ho, string_app_assoc.
    + assumption.
    + assumption.
    + now rewrite Ht, app_nil_r.
  - apply is_prefix_refl.
  - apply (Hhead 5%nat). lia.
  - intros Ho. destruct (Hret Ho) as (-> & body & ->).
    split; [reflexivity |]. split; [reflexivity |].
    exists body, elapsed. reflexivity.
  - intros s Hs. destruct (Hexit s Hs) as (-> & [Herr | (-> & pre & rc & Hrc & ->)]).
    + split; [reflexivity |]. now left.
    + split; [reflexivity |]. right. split; [reflexivity |].
      exists (engine_name eng ++ pre)%string, rc.
      split; [assumption |]. now rewrite string_app_assoc.
Qed.

(** ** The sequence of blocks *)

Lemma is_prefix_app_r {A} (l l1 l2 : list A) :
  is_prefix l l1 -> is_prefix l (l1 ++ l2).
Proof.
  intros [rest ->]. exists (rest ++ l2). now rewrite app_assoc.
Qed.

Lemma is_prefix_app_l {A} (l0 l l1 : list A) :
  is_prefix l l1 -> is_prefix (l0 ++ l) (l0 ++ l1).
Proof.
  intros [rest ->]. exists rest. now rewrite app_assoc.
Qed.

Lemma run_blocks_summary (e : env) (engines : list engine) (re : pcre)
    (ncaps : Z) (input : list byte) (len : Z) :
  forall w,
  exists out err tr,
    extends w (snd (run_blocks e engines re ncaps input len w)) out err tr
    /\ is_prefix tr (all_events e engines re ncaps input len)
    /\ (fst (run_blocks e engines re ncaps input len w) = Ret tt ->
        tr = all_events e engines re ncaps input len
        /\ err = ""%string
        /\ exists lines,
            Forall2 engine_line engines lines /\ out = concat_lines lines)
    /\ (forall s,
           fst (run_blocks e engines re ncaps input len w) = Exit s ->
           s = 2
           /\ (err <> ""%string
               \/ (err = ""%string
                   /\ exists pre rc,
                       rc < 0 /\ out = (pre ++ error_text rc)%string))).
Proof.
  induction engines as [| eng engines IH]; intros w.
  - exists ""%string, ""%string, []. cbn [run_blocks ret fst snd].
    split; [apply extends_refl |].
    split; [apply is_prefix_refl |].
    split; [| discriminate].
    intros _. split; [reflexivity |]. split; [reflexivity |].
    exists []. split; [constructor | reflexivity].
  - cbn [run_blocks]. unfold bind. unfold all_events. cbn [map List.concat].
    fold (all_events e engines re ncaps input len).
    destruct (engine_block_summary e eng re ncaps input len w)
      as (out1 & err1 & tr1 & Hext1 & Hpre1 & _ & Hret1 & Hexit1).
    destruct (engine_block e eng re ncaps input len w) as [o1 w1].
    cbn [fst snd] in *.
    destruct o1 as [[] | s1 | |].
    + destruct (Hret1 eq_refl) as (-> & -> & body & elapsed & ->).
      destruct (IH w1) as (out2 & err2 & tr2 & Hext2 & Hpre2 & Hret2 & Hexit2).
      destruct (run_blocks e engines re ncaps input len w1) as [o2 w2].
      cbn [fst snd] in *.
      eexists. exists err2. eexists.
      split; [exact (extends_trans _ _ _ _ _ _ _ _ _ Hext1 Hext2) |].
      split; [now apply is_prefix_app_l |].
      split.
      * intros Ho. destruct (Hret2 Ho) as (-> & -> & lines & Hlines & ->).
        split; [reflexivity |]. split; [reflexivity |].
        exists ((engine_name eng ++ body ++ elapsed_text elapsed)%string
                  :: lines).
        split; [| reflexivity].
        constructor; [| assumption]. now exists body, elapsed.
      * intros s Hs.
        destruct (Hexit2 s Hs) as (-> & [Herr | (-> & pre & rc & Hrc & ->)]).
        -- split; [reflexivity |]. now left.
        -- split; [reflexivity |]. right. split; [reflexivity |].
           eexists. exists rc. split; [assumption |].
           symmetry. apply string_app_assoc.
    + exists out1, err1, tr1.
      split; [assumption |].
      split; [now apply is_prefix_app_r |].
      split; [discriminate |]. assumption.
    + exists out1, err1, tr1.
      split; [assumption |].
      split; [now apply is_prefix_app_r |].
      split; discriminate.
    + exists out1, err1, tr1.
      split; [assumption |].
      split; [now apply is_prefix_app_r |].
      split; discriminate.
Qed.

Lemma run_engines_summary (e : env) (re : pcre) (engine_types ncaps : Z)
    (input : list byte) (len : Z) (w : world) :
  let engines := selected_engines engine_types in
  exists out err tr,
    extends w (snd (run_engines e re engine_types ncaps input len w))
            out err tr
    /\ is_prefix tr (all_events e engines re ncaps input len)
    /\ (fst (run_engines e re engine_types ncaps input len w) = Ret tt ->
        tr = all_events e engines re ncaps input len
        /\ err = ""%string
        /\ exists lines,
            Forall2 engine_line engines lines
            /\ out = (concat_lines lines ++ footer_text e)%string)
    /\ (forall s,
           fst (run_engines e re engine_types ncaps input len w) = Exit s ->
           s = 2
           /\ (err <> ""%string
               \/ (err = ""%string
                   /\ exists pre rc,
                       rc < 0 /\ out = (pre ++ error_text rc)%string))).
Proof.
  intros engines. rewrite run_engines_eq. fold engines. unfold bind.
  destruct (run_blocks_summary e engines re ncaps input len w)
    as (out & err & tr & Hext & Hpre & Hret & Hexit).
  destruct (run_blocks e engines re ncaps input len w) as [o w1].
  cbn [fst snd] in *.
  destruct o as [[] | s | |].
  - destruct (Hret eq_refl) as (-> & -> & lines & Hlines & ->).
    exists (concat_lines lines ++ footer_text e)%string, ""%string,
      (all_events e engines re ncaps input len).
    cbn [printf fst snd].
    split; [| split; [apply is_prefix_refl | split; [| discriminate]]].
    + destruct Hext as [Ho He Hn Ht].
      split; cbn [w_stdout w_stderr w_errno w_trace]; try assumption.
      now rewrite Ho, string_app_assoc.
    + intros _. split; [reflexivity |]. split; [reflexivity |].
      now exists lines.
  - exists out, err, tr. split; [assumption |]. split; [assumption |].
    split; [discriminate | assumption].
  - exists out, err, tr. split; [assumption |]. split; [assumption |].
    split; discriminate.
  - exists out, err, tr. split; [assumption |]. split; [assumption |].
    split; discriminate.
Qed.

(** ** A block that gets an answer from its match routine *)

Lemma engine_block_reaches (e : env) (eng : engine) (re : pcre) (ncaps : Z)
    (input : list byte) (len : Z) (w : world) (rc : Z) (ovector : list Z) :
  match_returns e eng re ncaps input len w rc ovector ->
  engine_block e eng re ncaps input len w =
  after_match e eng rc ovector (elapsed_at e w)
              (world_after_match e eng re ncaps input len w).
Proof.
  intros (Hmalloc & Hstudy & Hbegin & Helapsed & Hanswer).
  rewrite engine_block_unfold. cbv zeta.
  rewrite Hmalloc, Hstudy, Hbegin, Helapsed, Hanswer. reflexivity.
Qed.

Lemma run_engines_first_exits (e : env) (re : pcre) (engine_types ncaps : Z)
    (input : list byte) (len : Z) (w w' : world) (eng : engine)
    (rest : list engine) (s : Z) :
  selected_engines engine_types = eng :: rest ->
  engine_block e eng re ncaps input len w = (Exit s, w') ->
  run_engines e re engine_types ncaps input len w = (Exit s, w').
Proof.
  intros Hsel Hblock. rewrite run_engines_eq, Hsel.
  cbn [run_blocks]. unfold bind. now rewrite Hblock.
Qed.

(** C1, what the code does: when the match routine of the first selected
    engine returns the no-match value, a negative number, [run_engines]
    prints "no match" and then "error: <code>" on standard output and
    leaves the process with status 2; neither the elapsed time nor the
    footer is printed and the engines after it do not run. *)
Theorem C1_no_match_exits (e : env) (re : pcre) (engine_types ncaps : Z)
    (input : list byte) (len : Z) (w : world) (eng : engine)
    (rest : list engine) (ovector : list Z) :
  PCRE_ERROR_NOMATCH e < 0 ->
  selected_engines engine_types = eng :: rest ->
  match_returns e eng re ncaps input len w (PCRE_ERROR_NOMATCH e) ovector ->
  run_engines e re engine_types ncaps input len w =
  (Exit 2,
   mkWorld (w_stdout w ++ engine_name eng ++ "no match" ++
            error_text (PCRE_ERROR_NOMATCH e))
           (w_stderr w) (w_errno w) (S (S (w_clock w)))
           (w_trace w ++ engine_events e eng re ncaps input len)).
Proof.
  intros Hneg Hsel Hmatch.
  apply (run_engines_first_exits e re engine_types ncaps input len w _
                                 eng rest 2 Hsel).
  rewrite (engine_block_reaches _ _ _ _ _ _ _ _ _ Hmatch).
  assert (Hnz : (PCRE_ERROR_NOMATCH e =? 0) = false) by (apply Z.eqb_neq; lia).
  assert (Hreport :
    report e (PCRE_ERROR_NOMATCH e) ovector (elapsed_at e w)
           (world_after_match e eng re ncaps input len w) =
    (Exit 2,
     mkWorld (w_stdout w ++ engine_name eng ++ "no match" ++
              error_text (PCRE_ERROR_NOMATCH e))
             (w_stderr w) (w_errno w) (S (S (w_clock w)))
             (w_trace w ++ engine_events e eng re ncaps input len))).
  { rewrite report_negative by assumption.
    rewrite Z.eqb_refl. unfold world_after_match.
    cbn [w_stdout w_stderr w_errno w_clock w_trace].
    now rewrite string_app_assoc. }
  destruct eng; cbn [after_match]; rewrite Hnz; exact Hreport.
Qed.

Lemma C1_no_match_exits_witness :
  run_engines sample_env 10%nat 7 0
    [Byte.x41; Byte.x42; Byte.x43; Byte.x58; Byte.x59; Byte.x5a] 6
    init_world =
  (Exit 2,
   mkWorld "pcre default no matcherror: -1
" "" 0 2
     [EvMalloc 12; EvStudy 10%nat 0; EvClock;
      EvExec 10%nat 0%nat
        [Byte.x41; Byte.x42; Byte.x43; Byte.x58; Byte.x59; Byte.x5a]
        6 0 0 3;
      EvClock]).
Proof.
  apply (C1_no_match_exits sample_env 10%nat 7 0
           [Byte.x41; Byte.x42; Byte.x43; Byte.x58; Byte.x59; Byte.x5a] 6
           init_world Default [JIT; DFA] [0; 0; 0]).
  - reflexivity.
  - reflexivity.
  - repeat split; reflexivity.
Defined.

(** The same on the command line: the file holds [ABCXYZ], the pattern
    [abc] does not match it, and two engines are selected. *)
Example no_match_run :
  process sample_env ["sregex"; "--default"; "--jit"; "abc"; "in.txt"] =
  (Exit 2,
   mkWorld "pcre default no matcherror: -1
" "" 0 2
     [EvCompile "abc" 0; EvFullinfo 10%nat 2; EvFopen "in.txt";
      EvFseekEnd; EvFtell; EvFseekSet; EvMalloc 6; EvFread 6; EvFclose;
      EvMalloc 12; EvStudy 10%nat 0; EvClock;
      EvExec 10%nat 0%nat
        [Byte.x41; Byte.x42; Byte.x43; Byte.x58; Byte.x59; Byte.x5a]
        6 0 0 3;
      EvClock]).
Proof. vm_compute. reflexivity. Qed.

Lemma report_one (e : env) (a b : Z) (ovector : list Z) (elapsed : Z)
    (w : world) :
  PCRE_ERROR_NOMATCH e < 0 ->
  report e 1 (a :: b :: ovector) elapsed w =
  (Ret tt,
   mkWorld (w_stdout w ++ "match" ++ (" (" ++ fmt_d a ++ ", " ++ fmt_d b ++ ")")
            ++ elapsed_text elapsed)
           (w_stderr w) (w_errno w) (w_clock w) (w_trace w)).
Proof.
  intros Hneg. unfold report.
  replace (1 =? PCRE_ERROR_NOMATCH e) with false
    by (symmetry; apply Z.eqb_neq; lia).
  change (1 <? 0) with false. change (1 >? 0) with true.
  change (Z.to_nat 1) with 1%nat.
  cbn [print_pairs]. unfold read_int.
  change (0 <? 0) with false. change (0 + 1 <? 0) with false.
  change (Z.to_nat 0) with 0%nat. change (Z.to_nat (0 + 1)) with 1%nat.
  cbn [nth_error]. run_monad. now rewrite !string_app_assoc.
Qed.

(** C3: a return value of 0 from the match routine.  In the blocks of the
    Default and the JIT engine it is fatal: "capture size too small" goes
    to standard error and the process exits with status 2.  In the block
    of the DFA engine it is taken for 1 and reported as a match with the
    one pair [(ovector[0], ovector[1])], and the block returns. *)
Theorem C3_zero_return (e : env) (re : pcre) (ncaps : Z)
    (input : list byte) (len : Z) (w : world) (ovector : list Z) :
  (match_returns e Default re ncaps input len w 0 ovector ->
   default_block e re ncaps input len w =
   (Exit 2,
    mkWorld (w_stdout w ++ "pcre default ")
            (w_stderr w ++ "capture size too small") (w_errno w)
            (S (S (w_clock w)))
            (w_trace w ++ engine_events e Default re ncaps input len)))
  /\ (match_returns e JIT re ncaps input len w 0 ovector ->
      jit_block e re ncaps input len w =
      (Exit 2,
       mkWorld (w_stdout w ++ "pcre JIT ")
               (w_stderr w ++ "capture size too small") (w_errno w)
               (S (S (w_clock w)))
               (w_trace w ++ engine_events e JIT re ncaps input len)))
  /\ (forall a b tl,
         PCRE_ERROR_NOMATCH e < 0 ->
         ovector = a :: b :: tl ->
         match_returns e DFA re ncaps input len w 0 ovector ->
         dfa_block e re ncaps input len w =
         (Ret tt,
          mkWorld (w_stdout w ++ "pcre DFA " ++ "match" ++
                   (" (" ++ fmt_d a ++ ", " ++ fmt_d b ++ ")") ++
                   elapsed_text (elapsed_at e w))
                  (w_stderr w) (w_errno w) (S (S (w_clock w)))
                  (w_trace w ++ engine_events e DFA re ncaps input len))).
Proof.
  split; [| split].
  - intros Hmatch. rewrite default_block_eq.
    now rewrite (engine_block_reaches _ _ _ _ _ _ _ _ _ Hmatch).
  - intros Hmatch. rewrite jit_block_eq.
    now rewrite (engine_block_reaches _ _ _ _ _ _ _ _ _ Hmatch).
  - intros a b tl Hneg -> Hmatch. rewrite dfa_block_eq.
    rewrite (engine_block_reaches _ _ _ _ _ _ _ _ _ Hmatch).
    cbn [after_match Z.eqb]. rewrite report_one by assumption.
    unfold world_after_match.
    cbn [w_stdout w_stderr w_errno w_clock w_trace].
    now rewrite string_app_assoc.
Qed.

Lemma C3_zero_return_witness :
  default_block sample_env 30%nat 0 [Byte.x41] 1 init_world =
  (Exit 2,
   mkWorld "pcre default " "capture size too small" 0 2
     [EvMalloc 12; EvStudy 30%nat 0; EvClock;
      EvExec 30%nat 0%nat [Byte.x41] 1 0 0 3; EvClock])
  /\ jit_block sample_env 30%nat 0 [Byte.x41] 1 init_world =
     (Exit 2,
      mkWorld "pcre JIT " "capture size too small" 0 2
        [EvMalloc 12; EvStudy 30%nat 1; EvClock;
         EvExec 30%nat 1%nat [Byte.x41] 1 0 0 3; EvClock])
  /\ dfa_block sample_env 11%nat 0 [Byte.x41] 1 init_world =
     (Ret tt,
      mkWorld "pcre DFA match (0, 3): 7 clock units elapsed.
" "" 0 2
        [EvMalloc 8; EvStudy 11%nat 0; EvClock;
         EvDfaExec 11%nat 0%nat [Byte.x41] 1 0 0 2 100; EvClock]).
Proof.
  split; [| split].
  - apply (proj1 (C3_zero_return sample_env 30%nat 0 [Byte.x41] 1 init_world
                                 [0; 0; 0])).
    repeat split; reflexivity.
  - apply (proj1 (proj2 (C3_zero_return sample_env 30%nat 0 [Byte.x41] 1
                                        init_world [0; 0; 0]))).
    repeat split; reflexivity.
  - apply (proj2 (proj2 (C3_zero_return sample_env 11%nat 0 [Byte.x41] 1
                                        init_world [0; 3])) 0 3 []).
    + reflexivity.
    + reflexivity.
    + repeat split; reflexivity.
Defined.

(** ** The sizes of the buffers *)

Lemma ovecsize_in_range (ncaps : Z) :
  0 <= ncaps -> 3 * (ncaps + 1) <= INT_MAX ->
  to_size_t (to_int ((ncaps + 1) * 3)) = 3 * (ncaps + 1)
  /\ to_int (3 * (ncaps + 1)) = 3 * (ncaps + 1)
  /\ to_size_t (3 * (ncaps + 1) * sizeof_int) = 3 * (ncaps + 1) * sizeof_int.
Proof.
  unfold INT_MAX, sizeof_int. intros Hlo Hhi.
  rewrite to_int_small by lia.
  rewrite !to_size_t_small by lia.
  rewrite to_int_small by lia. repeat split; lia.
Qed.

Lemma block_trace (e : env) (eng : engine) (re : pcre) (ncaps : Z)
    (input : list byte) (len : Z) (w : world) :
  exists tr,
    w_trace (snd (engine_block e eng re ncaps input len w)) =
    w_trace w
      ++ EvMalloc (to_size_t (engine_ovecsize eng ncaps * sizeof_int)) :: tr
    /\ is_prefix
         (EvMalloc (to_size_t (engine_ovecsize eng ncaps * sizeof_int)) :: tr)
         (engine_events e eng re ncaps input len).
Proof.
  destruct (engine_block_summary e eng re ncaps input len w)
    as (out & err & tr & Hext & Hpre & [tr' ->] & _).
  exists tr'. split; [apply Hext | assumption].
Qed.

Lemma engine_block_calls (e : env) (eng : engine) (re : pcre) (ncaps : Z)
    (input : list byte) (len : Z) (w : world) :
  w_trace (snd (engine_block e eng re ncaps input len w)) =
  w_trace w
    ++ firstn (block_calls e
                 (to_size_t (engine_ovecsize eng ncaps * sizeof_int)) re
                 (study_options e eng) w)
              (engine_events e eng re ncaps input len).
Proof.
  rewrite engine_block_unfold. cbv zeta. unfold block_calls.
  destruct (malloc e (to_size_t (engine_ovecsize eng ncaps * sizeof_int)));
    [| reflexivity].
  destruct (snd (pcre_study e re (study_options e eng))); [reflexivity |].
  destruct (clock e (w_clock w) =? -1); [reflexivity |].
  match goal with
  | |- context [if ?c <? 0 then _ else _] => destruct (c <? 0)
  end; [reflexivity |].
  match goal with
  | |- context [after_match e eng ?rc ?ov ?el ?w1] =>
      destruct (after_match_summary e eng rc ov el w1)
        as (out & err & [_ _ _ Ht] & _)
  end.
  rewrite Ht. cbn [w_trace]. now rewrite app_nil_r.
Qed.

(** C4: the size of the capture buffer.  The calls of a block are the
    first of the list given here, as many as [block_calls] says: every
    run of a block begins by allocating the buffer, and when the
    allocation and [pcre_study] succeed and the clock is read, the match
    routine is called with it.  For the Default and the JIT engine the
    buffer has [3 * (ncaps + 1)] integers and that number is the size
    passed to [pcre_exec], for a capture count that is not negative and
    not beyond what an [int] holds; for the DFA engine the buffer has 2
    integers and [pcre_dfa_exec] is given the size 2 and a workspace of
    100 integers. *)
Theorem C4_buffer_sizes (e : env) (re : pcre) (ncaps : Z)
    (input : list byte) (len : Z) (w : world) :
  0 <= ncaps ->
  3 * (ncaps + 1) <= INT_MAX ->
  w_trace (snd (default_block e re ncaps input len w)) =
  w_trace w
    ++ firstn (block_calls e (3 * (ncaps + 1) * sizeof_int) re 0 w)
              [EvMalloc (3 * (ncaps + 1) * sizeof_int);
               EvStudy re 0;
               EvClock;
               EvExec re (fst (pcre_study e re 0)) input (to_int len) 0 0
                      (3 * (ncaps + 1));
               EvClock]
  /\ w_trace (snd (jit_block e re ncaps input len w)) =
     w_trace w
       ++ firstn (block_calls e (3 * (ncaps + 1) * sizeof_int) re
                              (PCRE_STUDY_JIT_COMPILE e) w)
                 [EvMalloc (3 * (ncaps + 1) * sizeof_int);
                  EvStudy re (PCRE_STUDY_JIT_COMPILE e);
                  EvClock;
                  EvExec re (fst (pcre_study e re (PCRE_STUDY_JIT_COMPILE e)))
                         input (to_int len) 0 0 (3 * (ncaps + 1));
                  EvClock]
  /\ w_trace (snd (dfa_block e re ncaps input len w)) =
     w_trace w
       ++ firstn (block_calls e (2 * sizeof_int) re 0 w)
                 [EvMalloc (2 * sizeof_int);
                  EvStudy re 0;
                  EvClock;
                  EvDfaExec re (fst (pcre_study e re 0)) input (to_int len)
                            0 0 2 100;
                  EvClock].
Proof.
  intros Hlo Hhi.
  destruct (ovecsize_in_range ncaps Hlo Hhi) as (Hsize & Hint & Hbytes).
  split; [| split].
  - rewrite default_block_eq, engine_block_calls.
    unfold engine_events. cbn [engine_ovecsize study_options].
    now rewrite Hsize, Hbytes, Hint.
  - rewrite jit_block_eq, engine_block_calls.
    unfold engine_events. cbn [engine_ovecsize study_options].
    now rewrite Hsize, Hbytes, Hint.
  - rewrite dfa_block_eq, engine_block_calls. reflexivity.
Qed.

Lemma C4_buffer_sizes_witness :
  w_trace (snd (default_block sample_env 20%nat 1 [Byte.x41] 1 init_world)) =
  [EvMalloc 24; EvStudy 20%nat 0; EvClock;
   EvExec 20%nat 0%nat [Byte.x41] 1 0 0 6; EvClock]
  /\ w_trace (snd (dfa_block sample_env 20%nat 1 [Byte.x41] 1 init_world)) =
     [EvMalloc 8; EvStudy 20%nat 0; EvClock;
      EvDfaExec 20%nat 0%nat [Byte.x41] 1 0 0 2 100; EvClock].
Proof.
  assert (Hlo : 0 <= 1) by lia.
  assert (Hhi : 3 * (1 + 1) <= INT_MAX) by (unfold INT_MAX; lia).
  pose proof (C4_buffer_sizes sample_env 20%nat 1 [Byte.x41] 1 init_world
                              Hlo Hhi) as (Hdefault & _ & Hdfa).
  split; [exact Hdefault | exact Hdfa].
Defined.

(** ** The selection and the order of the flags *)






Section FoldPermutation.

Variables (A B : Type) (step : A -> B -> A).
Hypothesis step_comm :
  forall a x y, step (step a x) y = step (step a y) x.


End FoldPermutation.





(** ** Loading the file *)

Ltac run_io :=
  unfold c_fopen, c_fseek_end, c_ftell, c_fseek_set, c_fread, c_fclose,
    stream_call;
  run_monad.

(** C2, what the code does: when [fread] returns fewer bytes than asked
    for and the stream is not at its end, [main] prints the text of the
    error with [perror] and goes on: it closes the stream and runs the
    engines on the buffer, of which only the first bytes were read. *)
Theorem C2_read_error_goes_on (e : env) (re : pcre) (engine_types ncaps : Z)
    (path : string) (f : file) (w : world) :
  let len := to_size_t (f_tell f) in
  reaches_fread e path f ->
  Z.of_nat (List.length (bytes_read f len)) < len ->
  f_eof f = false ->
  f_close f = 0 ->
  load_and_run e re engine_types ncaps path w =
  (run_engines e re engine_types ncaps (bytes_read f len) len ;; ret 0)
    (mkWorld (w_stdout w)
             (w_stderr w ++ "read file: " ++ strerror e (f_errno f) ++ "
")
             (f_errno f) (w_clock w)
             (w_trace w ++ [EvFopen path; EvFseekEnd; EvFtell; EvFseekSet;
                            EvMalloc len; EvFread len; EvFclose])).
Proof.
  intros len (Hopen & Hend & Htell & Hset & Hmalloc) Hshort Heof Hclose.
  subst len.
  apply Z.ltb_lt in Hshort. unfold bytes_read in Hshort.
  unfold load_and_run. run_io.
  repeat (progress (run_monad;
                    rewrite ?Hopen, ?Hend, ?Htell, ?Hset, ?Hmalloc, ?Hshort,
                      ?Heof, ?Hclose;
                    cbn [Z.eqb negb andb])).
  rewrite <- !app_assoc. reflexivity.
Qed.

Lemma C2_read_error_goes_on_witness :
  load_and_run sample_env 11%nat 1 0 "bad.txt" init_world =
  (Ret 0,
   mkWorld "pcre default match (0, 3): 7 clock units elapsed.
(1 clock unit is 0.000001 sec)
" "read file: Error 5
" 5 2
     [EvFopen "bad.txt"; EvFseekEnd; EvFtell; EvFseekSet; EvMalloc 6;
      EvFread 6; EvFclose; EvMalloc 12; EvStudy 11%nat 0; EvClock;
      EvExec 11%nat 0%nat [Byte.x41; Byte.x42; Byte.x43; Byte.x58] 6 0 0 3;
      EvClock]).
Proof.
  rewrite (C2_read_error_goes_on sample_env 11%nat 1 0 "bad.txt"
                                 failing_file init_world).
  - reflexivity.
  - repeat split; reflexivity.
  - reflexivity.
  - reflexivity.
  - reflexivity.
Defined.

(** The same on the command line: the process ends with status 0. *)
Example read_error_run :
  process sample_env ["sregex"; "--default"; "-i"; "abc"; "bad.txt"] =
  (Exit 0,
   mkWorld "pcre default match (0, 3): 7 clock units elapsed.
(1 clock unit is 0.000001 sec)
" "read file: Error 5
" 5 2
     [EvCompile "abc" 1; EvFullinfo 11%nat 2;
      EvFopen "bad.txt"; EvFseekEnd; EvFtell; EvFseekSet; EvMalloc 6;
      EvFread 6; EvFclose; EvMalloc 12; EvStudy 11%nat 0; EvClock;
      EvExec 11%nat 0%nat [Byte.x41; Byte.x42; Byte.x43; Byte.x58] 6 0 0 3;
      EvClock]).
Proof. vm_compute. reflexivity. Qed.

(** At the end of the stream a short read is fatal, as the specification
    says. *)
Lemma load_and_run_truncated (e : env) (re : pcre) (engine_types ncaps : Z)
    (path : string) (f : file) (w : world) :
  let len := to_size_t (f_tell f) in
  reaches_fread e path f ->
  Z.of_nat (List.length (bytes_read f len)) < len ->
  f_eof f = true ->
  load_and_run e re engine_types ncaps path w =
  (Ret 1,
   mkWorld (w_stdout w) (w_stderr w ++ "file truncated.
") 0 (w_clock w)
     (w_trace w ++ [EvFopen path; EvFseekEnd; EvFtell; EvFseekSet;
                    EvMalloc len; EvFread len])).
Proof.
  intros len (Hopen & Hend & Htell & Hset & Hmalloc) Hshort Heof.
  subst len.
  apply Z.ltb_lt in Hshort. unfold bytes_read in Hshort.
  unfold load_and_run. run_io.
  repeat (progress (run_monad;
                    rewrite ?Hopen, ?Hend, ?Htell, ?Hset, ?Hmalloc, ?Hshort,
                      ?Heof;
                    cbn [Z.eqb negb andb])).
  rewrite <- !app_assoc. reflexivity.
Qed.

(** ** Where the diagnostics go *)

Lemma string_app_nonempty (a msg : string) :
  msg <> ""%string -> (a ++ msg)%string <> ""%string.
Proof. destruct a; cbn; [trivial | discriminate]. Qed.

(** Closes a branch that ends with status [1] or [2] after a text on
    standard error. *)
Ltac stderr_branch :=
  let H := fresh in
  intros ? [H | H]; cbn [fst] in H; inversion H; subst;
  right;
  first
    [ left; split; [reflexivity |]; split; [reflexivity |]
    | right; split; [reflexivity |]; left ];
  cbn [snd w_stdout w_stderr]; rewrite ?string_app_assoc;
  eexists; (split; [| reflexivity]);
  first [discriminate | unfold usage_text; discriminate].

Lemma run_engines_diagnosed (e : env) (re : pcre) (engine_types ncaps : Z)
    (input : list byte) (len : Z) (w0 w : world) (m : string) :
  w_stdout w = w_stdout w0 ->
  w_stderr w = (w_stderr w0 ++ m)%string ->
  forall s,
    (fst (run_engines e re engine_types ncaps input len w) = Ret tt /\ s = 0)
    \/ fst (run_engines e re engine_types ncaps input len w) = Exit s ->
    diagnosed w0 (snd (run_engines e re engine_types ncaps input len w)) s.
Proof.
  intros Hout Herr s [[_ ->] | Hexit]; [now left |].
  destruct (run_engines_summary e re engine_types ncaps input len w)
    as (out & err & tr & [Ho He _ _] & _ & _ & Hfatal).
  destruct (Hfatal s Hexit) as (-> & [Hmsg | (-> & pre & rc & Hrc & ->)]).
  - right. right. split; [reflexivity |]. left.
    exists (m ++ err)%string. split; [now apply string_app_nonempty |].
    now rewrite He, Herr, string_app_assoc.
  - right. right. split; [reflexivity |]. right.
    exists pre, rc. split; [assumption |]. now rewrite Ho, Hout.
Qed.

(** Case analysis on a test of the program, carried through the steps of
    the monad that bring the same test up again. *)
Ltac use_tests :=
  repeat match goal with
         | H : _ = true |- _ => rewrite H
         | H : _ = false |- _ => rewrite H
         end.

Ltac decide_test c :=
  let H := fresh "Htest" in
  destruct c eqn:H;
  repeat (progress (run_monad; use_tests; cbn [negb andb])).

Lemma load_and_run_diagnosed (e : env) (re : pcre) (engine_types ncaps : Z)
    (path : string) (w : world) :
  forall s,
    ended (load_and_run e re engine_types ncaps path w) s s ->
    diagnosed w (snd (load_and_run e re engine_types ncaps path w)) s.
Proof.
  unfold ended, load_and_run. run_io.
  destruct (fopen e path) as [f | en]; run_monad; [| stderr_branch].
  decide_test (f_seek_end f =? 0); [| stderr_branch].
  decide_test (f_tell f =? -1); [stderr_branch |].
  decide_test (f_seek_set f =? 0); [| stderr_branch].
  decide_test (malloc e (to_size_t (f_tell f))); [| stderr_branch].
  decide_test (Z.of_nat (List.length (firstn (Z.to_nat (to_size_t (f_tell f)))
                                             (f_data f)))
               <? to_size_t (f_tell f));
    [decide_test (f_eof f); [stderr_branch |] |].
  all: decide_test (f_close f =? 0); try stderr_branch.
  all: match goal with
       | |- context [run_engines ?e0 ?re0 ?et ?nc ?inp ?len ?w1] =>
           pose proof (run_engines_diagnosed e0 re0 et nc inp len w w1)
             as Hrun;
           destruct (run_engines e0 re0 et nc inp len w1) as [o w2]
       end;
    cbn [fst snd w_stdout w_stderr] in *;
    intros s Hs.
  - destruct o as [[] | t | |]; cbn [fst snd] in Hs |- *;
      destruct Hs as [Hs | Hs]; inversion Hs; subst;
      apply (Hrun _ eq_refl eq_refl); auto.
  - destruct o as [[] | t | |]; cbn [fst snd] in Hs |- *;
      destruct Hs as [Hs | Hs]; inversion Hs; subst;
      (apply (Hrun ""%string eq_refl);
       [now rewrite string_app_nil_r | auto]).
Qed.

Lemma option_loop_outcome (e : env) (rest : list string) :
  forall i flags engine_types w,
    (exists r, option_loop e rest i flags engine_types w = (Ret r, w))
    \/ (exists msg,
           msg <> ""%string
           /\ option_loop e rest i flags engine_types w =
              (Exit 1,
               mkWorld (w_stdout w) (w_stderr w ++ msg) (w_errno w)
                       (w_clock w) (w_trace w))).
Proof.
  induction rest as [| arg rest IH]; intros i flags et w.
  - left. now eexists.
  - destruct (Ascii.eqb (char_at0 arg) "-"%char) eqn:Hdash.
    + rewrite option_loop_cons by assumption.
      destruct (classify arg); [apply IH |].
      right. eexists. split; [| reflexivity]. discriminate.
    + left. cbn [option_loop]. rewrite Hdash. now eexists.
Qed.

Lemma after_options_diagnosed (e : env) (argv : list string)
    (i flags engine_types : Z) (w : world) :
  forall s,
    ended (after_options e argv i flags engine_types w) s s ->
    diagnosed w (snd (after_options e argv i flags engine_types w)) s.
Proof.
  unfold ended, after_options.
  decide_test (engine_types =? 0); [stderr_branch |].
  decide_test (to_unsigned (Z.of_nat (List.length argv) - i) =? 2);
    [| stderr_branch].
  destruct (pcre_compile e (argv_at argv i) flags) as [re | [errstr off]];
    run_monad; [| stderr_branch].
  destruct (pcre_fullinfo e re (PCRE_INFO_CAPTURECOUNT e)) as [rc ncaps].
  decide_test (rc <? 0); [stderr_branch |].
  intros s Hs.
  exact (load_and_run_diagnosed e re engine_types ncaps _ _ s Hs).
Qed.

Lemma main_diagnosed (e : env) (argv : list string) (w : world) :
  forall s,
    ended (main e argv w) s s -> diagnosed w (snd (main e argv w)) s.
Proof.
  unfold ended, main.
  decide_test (Z.of_nat (List.length argv) <? 3); [stderr_branch |].
  destruct (option_loop_outcome e (skipn 1 argv) 1 0 0 w)
    as [[[[i flags] et] Hloop] | [msg [Hmsg Hloop]]];
    rewrite Hloop.
  - apply after_options_diagnosed.
  - intros s [Hs | Hs]; cbn [fst] in Hs; inversion Hs; subst.
    right. left. split; [reflexivity |]. split; [reflexivity |].
    now exists msg.
Qed.

Lemma process_diagnosed (e : env) (argv : list string) (s : Z) (w : world) :
  process e argv = (Exit s, w) -> diagnosed init_world w s.
Proof.
  unfold process. intros Hp.
  pose proof (main_diagnosed e argv init_world s) as Hmain.
  unfold ended in Hmain.
  destruct (main e argv init_world) as [[t | t | |] w'];
    inversion Hp; subst; apply Hmain; cbn [fst]; auto.
Qed.



(** * Further properties of the harness *)

(** ** The exit status *)

(** X1: the exit status of the process is 0, 1 or 2. *)
Theorem X1_exit_status_range (e : env) (argv : list string) (s : Z)
    (w : world) :
  process e argv = (Exit s, w) -> s = 0 \/ s = 1 \/ s = 2.
Proof.
  intros Hp.
  destruct (process_diagnosed e argv s w Hp) as [H | [(H & _) | (H & _)]];
    auto.
Qed.

Lemma X1_exit_status_range_witness : 2 = 0 \/ 2 = 1 \/ 2 = 2.
Proof.
  apply (X1_exit_status_range sample_env
           ["sregex"; "--default"; "("; "in.txt"] 2
           (mkWorld "" "[error] pos 1: missing )
" 0 0 [EvCompile "(" 0])).
  vm_compute. reflexivity.
Defined.

(** ** The result of the option loop *)

Lemma flags_after_closed (e : env) (opts : list string) :
  forall b : bool,
    flags_after e (if b then PCRE_CASELESS e else 0) opts =
    if b || existsb is_caseless opts then PCRE_CASELESS e else 0.
Proof.
  induction opts as [| arg opts IH]; intros b; cbn [existsb].
  - now rewrite orb_false_r.
  - cbn [flags_after fold_left].
    fold (flags_after e (flags_step e (if b then PCRE_CASELESS e else 0) arg)
                      opts).
    replace (flags_step e (if b then PCRE_CASELESS e else 0) arg)
      with (if b || is_caseless arg then PCRE_CASELESS e else 0).
    + rewrite IH. now rewrite orb_assoc.
    + unfold flags_step, is_caseless.
      destruct (classify arg) as [[| | |] |]; destruct b; cbn [orb];
        first [reflexivity | symmetry; apply Z.lor_diag].
Qed.

Lemma engines_after_closed (opts : list string) :
  forall d j f : bool,
    engines_after (engine_mask d j f) opts =
    engine_mask (d || existsb (chooses Default) opts)
                (j || existsb (chooses JIT) opts)
                (f || existsb (chooses DFA) opts).
Proof.
  induction opts as [| arg opts IH]; intros d j f; cbn [existsb].
  - now rewrite !orb_false_r.
  - cbn [engines_after fold_left].
    fold (engines_after (engines_step (engine_mask d j f) arg) opts).
    replace (engines_step (engine_mask d j f) arg)
      with (engine_mask (d || chooses Default arg) (j || chooses JIT arg)
                        (f || chooses DFA arg)).
    + rewrite IH. now rewrite !orb_assoc.
    + unfold engines_step, chooses.
      destruct (classify arg) as [[| | |] |]; destruct d, j, f; reflexivity.
Qed.

(** X2: the option loop in closed form.  Over well-formed options it
    stops at the first token that is not an option with [i] advanced by
    their number, with [flags] equal to [PCRE_CASELESS] when some token
    was taken for [-i] and to 0 otherwise, and with [engine_types] the
    sum of the bits of the engines whose flag was given: giving an option
    more than once changes nothing. *)
Theorem X2_option_loop_closed_form (e : env) (opts rest : list string)
    (i : Z) (w : world) :
  forallb is_option opts = true ->
  stops_at rest = true ->
  0 <= i ->
  i + Z.of_nat (List.length opts) < 2 ^ 32 ->
  option_loop e (opts ++ rest) i 0 0 w =
  (Ret (i + Z.of_nat (List.length opts),
        (if existsb is_caseless opts then PCRE_CASELESS e else 0),
        engine_mask (existsb (chooses Default) opts)
                    (existsb (chooses JIT) opts)
                    (existsb (chooses DFA) opts)),
   w).
Proof.
  intros Hopts Hstop Hi Hlen.
  rewrite option_loop_app by assumption.
  rewrite option_loop_stop by assumption.
  rewrite index_after_length by assumption.
  rewrite (flags_after_closed e opts false).
  pose proof (engines_after_closed opts false false false) as Hmask.
  change (engine_mask false false false) with 0 in Hmask.
  rewrite Hmask. reflexivity.
Qed.

Lemma X2_option_loop_closed_form_witness :
  option_loop sample_env
    ["-i"; "--dfa"; "-i"; "--dfa"; "--jit"; "abc"; "in.txt"] 1 0 0
    init_world =
  (Ret (6, 1, 6), init_world).
Proof.
  apply (X2_option_loop_closed_form sample_env
           ["-i"; "--dfa"; "-i"; "--dfa"; "--jit"] ["abc"; "in.txt"] 1
           init_world).
  - reflexivity.
  - reflexivity.
  - lia.
  - cbn. lia.
Defined.

(** ** The command lines that are accepted *)

Lemma process_unknown_option (e : env) (prog : string) (opts : list string)
    (arg : string) (rest : list string) :
  forallb is_option opts = true ->
  Ascii.eqb (char_at0 arg) "-"%char = true ->
  classify arg = None ->
  (3 <= List.length (prog :: opts ++ arg :: rest))%nat ->
  process e (prog :: opts ++ arg :: rest) =
  (Exit 1, mkWorld "" ("unknown option: " ++ arg ++ "
") 0 0 []).
Proof.
  intros Hopts Hdash Hnone Hlen. unfold process, main.
  replace (Z.of_nat (List.length (prog :: opts ++ arg :: rest)) <? 3)
    with false by (symmetry; apply Z.ltb_ge; lia).
  cbn [skipn]. rewrite option_loop_app by assumption.
  rewrite option_loop_cons by assumption. rewrite Hnone. reflexivity.
Qed.

(** Any list of arguments is a run of options followed by the place where
    the loop stops or by a token it rejects. *)
Lemma scan_split (l : list string) :
  exists opts tail,
    l = opts ++ tail
    /\ forallb is_option opts = true
    /\ (stops_at tail = true
        \/ exists arg tl,
            tail = arg :: tl
            /\ Ascii.eqb (char_at0 arg) "-"%char = true
            /\ classify arg = None).
Proof.
  induction l as [| arg l IH].
  - exists [], []. repeat split. now left.
  - destruct (Ascii.eqb (char_at0 arg) "-"%char) eqn:Hdash.
    + destruct (classify arg) as [k |] eqn:Hk.
      * destruct IH as (opts & tail & -> & Hopts & Htail).
        exists (arg :: opts), tail. split; [reflexivity |]. split.
        -- cbn [forallb]. unfold is_option at 1. now rewrite Hk.
        -- assumption.
      * exists [], (arg :: l). split; [reflexivity |].
        split; [reflexivity |]. right. now exists arg, l.
    + exists [], (arg :: l). split; [reflexivity |].
      split; [reflexivity |]. left. cbn [stops_at]. now rewrite Hdash.
Qed.

Lemma no_flag_no_engine (opts : list string) :
  forallb (fun arg => negb (is_engine_flag arg)) opts = true ->
  forall engine_types, engines_after engine_types opts = engine_types.
Proof.
  induction opts as [| arg opts IH]; [reflexivity |].
  cbn [forallb]. intros H et. apply andb_true_iff in H as [Harg Hall].
  cbn [engines_after fold_left].
  fold (engines_after (engines_step et arg) opts).
  rewrite IH by assumption.
  apply negb_true_iff in Harg. unfold is_engine_flag in Harg.
  apply orb_false_iff in Harg as [Harg Hdfa].
  apply orb_false_iff in Harg as [Hdefault Hjit].
  unfold engines_step, classify. rewrite Hdefault, Hjit, Hdfa.
  now destruct (prefix "-i" arg).
Qed.

(** C7, as the code has it.  When at least two arguments follow the
    program name and every token in front of the first token without a
    dash is taken for [-i] (so that no engine flag is given and no option
    is unknown), the process prints "No engine specified." on standard
    error and exits with status 1, without compiling the pattern or
    opening the file.  Whenever no token is an engine flag, the process
    exits with status 1 before any external call and with nothing on
    standard output, and its message is the usage text, "No engine
    specified." or "unknown option: <token>". *)
Theorem C7_no_engine_specified (e : env) :
  (forall prog opts rest,
      forallb is_caseless opts = true ->
      stops_at rest = true ->
      (2 <= List.length (opts ++ rest))%nat ->
      process e (prog :: opts ++ rest) =
      (Exit 1, mkWorld "" "No engine specified.
" 0 0 []))
  /\ (forall argv,
         forallb (fun arg => negb (is_engine_flag arg)) (skipn 1 argv)
         = true ->
         exists msg,
           process e argv = (Exit 1, mkWorld "" msg 0 0 [])
           /\ (msg = usage_text
               \/ msg = "No engine specified.
"%string
               \/ exists arg,
                   In arg (skipn 1 argv)
                   /\ msg = ("unknown option: " ++ arg ++ "
")%string)).
Proof.
  split.
  - intros prog opts rest Hopts Hstop Hlen.
    apply process_no_engine.
    + now apply caseless_is_option.
    + assumption.
    + now apply caseless_no_engine.
    + cbn [List.length]. lia.
  - intros argv Hnone.
    destruct (Nat.lt_ge_cases (List.length argv) 3) as [Hshort | Hlen].
    { exists usage_text. split; [now apply process_short | now left]. }
    destruct argv as [| prog l]; [cbn in Hlen; lia |].
    cbn [skipn] in Hnone |- *.
    destruct (scan_split l) as (opts & tail & -> & Hopts & [Hstop | Hbad]).
    + eexists. split.
      * apply process_no_engine; try assumption.
        rewrite forallb_app in Hnone.
        apply andb_true_iff in Hnone as [Hnone _].
        now apply no_flag_no_engine.
      * right. now left.
    + destruct Hbad as (arg & tl & -> & Hdash & Hbad).
      eexists. split.
      * now apply process_unknown_option.
      * right. right. exists arg. split; [| reflexivity].
        apply in_or_app. right. now left.
Qed.

Lemma C7_no_engine_specified_witness :
  process sample_env ["sregex"; "-i"; "abc"; "in.txt"] =
  (Exit 1, mkWorld "" "No engine specified.
" 0 0 [])
  /\ exists msg,
      process sample_env ["sregex"; "-v"; "abc"; "in.txt"] =
      (Exit 1, mkWorld "" msg 0 0 []).
Proof.
  destruct (C7_no_engine_specified sample_env) as [Hi Hany].
  split.
  - apply (Hi "sregex" ["-i"] ["abc"; "in.txt"]).
    + reflexivity.
    + reflexivity.
    + cbn. lia.
  - destruct (Hany ["sregex"; "-v"; "abc"; "in.txt"] eq_refl)
      as (msg & Hmsg & _).
    now exists msg.
Defined.

(** C7 as stated fails: without an engine flag the message is not always
    "No engine specified.".  With one argument it is the usage text, and
    with an option that is not recognised it is "unknown option". *)
Lemma C7_counterexample :
  process sample_env ["sregex"; "abc"] =
  (Exit 1, mkWorld "" usage_text 0 0 [])
  /\ process sample_env ["sregex"; "-abc"; "in.txt"] =
     (Exit 1, mkWorld "" "unknown option: -abc
" 0 0 [])
  /\ usage_text <> "No engine specified.
"%string
  /\ "unknown option: -abc
"%string <> "No engine specified.
"%string.
Proof.
  split; [vm_compute; reflexivity |].
  split; [vm_compute; reflexivity |].
  split; discriminate.
Qed.

Lemma command_line_cases (e : env) (argv : list string) :
  Z.of_nat (List.length argv) <= INT_MAX ->
  (exists msg, process e argv = (Exit 1, mkWorld "" msg 0 0 []))
  \/ (exists prog opts pattern path,
         argv = prog :: opts ++ [pattern; path]
         /\ forallb is_option opts = true
         /\ engines_after 0 opts <> 0
         /\ Ascii.eqb (char_at0 pattern) "-"%char = false).
Proof.
  intros Hmax.
  destruct (Nat.lt_ge_cases (List.length argv) 3) as [Hshort | Hlen].
  { left. exists usage_text. now apply process_short. }
  destruct argv as [| prog l]; [cbn in Hlen; lia |].
  destruct (scan_split l) as (opts & tail & -> & Hopts & [Hstop | Hbad]).
  - destruct (Z.eq_dec (engines_after 0 opts) 0) as [Hnone | Hsome].
    { left. eexists. now apply process_no_engine. }
    destruct (Nat.eq_dec (List.length tail) 2) as [Htwo | Hcount].
    + right.
      destruct tail as [| pattern [| path [| x tail]]]; try discriminate.
      exists prog, opts, pattern, path.
      split; [reflexivity |]. split; [assumption |]. split; [assumption |].
      cbn [stops_at] in Hstop. now apply negb_true_iff in Hstop.
    + left. eexists. now apply process_bad_count.
  - destruct Hbad as (arg & tl & -> & Hdash & Hnone).
    left. eexists. now apply process_unknown_option.
Qed.


(** X3: the command lines [main] accepts.  Whatever the arguments are,
    either the process exits with status 1 before any external call and
    with nothing on standard output, or the arguments are the program
    name, options that are all recognised and select an engine, and
    exactly two further tokens, the pattern and the file, of which the
    pattern does not begin with a dash. *)
Theorem X3_accepted_command_lines (e : env) (argv : list string) :
  Z.of_nat (List.length argv) <= INT_MAX ->
  (exists msg, process e argv = (Exit 1, mkWorld "" msg 0 0 []))
  \/ (exists prog opts pattern path,
         argv = prog :: opts ++ [pattern; path]
         /\ forallb is_option opts = true
         /\ engines_after 0 opts <> 0
         /\ Ascii.eqb (char_at0 pattern) "-"%char = false).
Proof. apply command_line_cases. Qed.

Lemma X3_accepted_command_lines_witness :
  (exists msg,
      process sample_env ["sregex"; "--jit"; "-v"; "abc"; "in.txt"] =
      (Exit 1, mkWorld "" msg 0 0 []))
  \/ (exists prog opts pattern path,
         ["sregex"; "--jit"; "-v"; "abc"; "in.txt"] =
         prog :: opts ++ [pattern; path]
         /\ forallb is_option opts = true
         /\ engines_after 0 opts <> 0
         /\ Ascii.eqb (char_at0 pattern) "-"%char = false).
Proof.
  apply (X3_accepted_command_lines sample_env
           ["sregex"; "--jit"; "-v"; "abc"; "in.txt"]).
  vm_compute. discriminate.
Defined.

(** ** From the pattern to the engines *)

(** X5: when the query of the capture count fails, the process prints
    "failed to get capture count." on standard error and exits with
    status 2; the pattern was compiled, and the file is not opened. *)
Theorem X5_capture_count_failure (e : env) (prog : string)
    (opts : list string) (pattern path : string) (re : pcre) (rc ncaps : Z) :
  forallb is_option opts = true ->
  Ascii.eqb (char_at0 pattern) "-"%char = false ->
  engines_after 0 opts <> 0 ->
  Z.of_nat (List.length (prog :: opts ++ [pattern; path])) <= INT_MAX ->
  pcre_compile e pattern (flags_after e 0 opts) = inl re ->
  pcre_fullinfo e re (PCRE_INFO_CAPTURECOUNT e) = (rc, ncaps) ->
  rc < 0 ->
  process e (prog :: opts ++ [pattern; path]) =
  (Exit 2,
   mkWorld "" "failed to get capture count.
" 0 0
     [EvCompile pattern (flags_after e 0 opts);
      EvFullinfo re (PCRE_INFO_CAPTURECOUNT e)]).
Proof.
  intros Hopts Hpat Hsome Hmax Hcompile Hinfo Hrc.
  unfold process. rewrite main_two_positionals by assumption.
  run_monad. cbn [init_world w_stdout w_stderr w_errno w_clock w_trace].
  rewrite Hcompile. run_monad. rewrite Hinfo.
  apply Z.ltb_lt in Hrc. rewrite Hrc. reflexivity.
Qed.

(** X6: when the file cannot be opened, the process prints "open file: "
    and the text of the error on standard error and exits with status 1;
    by then the pattern is compiled and its capture count queried, and
    nothing else is called. *)
Theorem X6_open_failure (e : env) (prog : string) (opts : list string)
    (pattern path : string) (re : pcre) (rc ncaps en : Z) :
  forallb is_option opts = true ->
  Ascii.eqb (char_at0 pattern) "-"%char = false ->
  engines_after 0 opts <> 0 ->
  Z.of_nat (List.length (prog :: opts ++ [pattern; path])) <= INT_MAX ->
  pcre_compile e pattern (flags_after e 0 opts) = inl re ->
  pcre_fullinfo e re (PCRE_INFO_CAPTURECOUNT e) = (rc, ncaps) ->
  0 <= rc ->
  fopen e path = inr en ->
  process e (prog :: opts ++ [pattern; path]) =
  (Exit 1,
   mkWorld "" ("open file: " ++ strerror e en ++ "
") en 0
     [EvCompile pattern (flags_after e 0 opts);
      EvFullinfo re (PCRE_INFO_CAPTURECOUNT e);
      EvFopen path]).
Proof.
  intros Hopts Hpat Hsome Hmax Hcompile Hinfo Hrc Hopen.
  unfold process. rewrite main_two_positionals by assumption.
  run_monad. cbn [init_world w_stdout w_stderr w_errno w_clock w_trace].
  rewrite Hcompile. run_monad. rewrite Hinfo.
  apply Z.ltb_ge in Hrc. rewrite Hrc.
  unfold load_and_run. run_io. rewrite Hopen. reflexivity.
Qed.

Lemma X6_open_failure_witness :
  process sample_env ["sregex"; "--dfa"; "abc"; "missing.txt"] =
  (Exit 1,
   mkWorld "" "open file: Error 2
" 2 0
     [EvCompile "abc" 0; EvFullinfo 10%nat 2; EvFopen "missing.txt"]).
Proof.
  apply (X6_open_failure sample_env "sregex" ["--dfa"] "abc" "missing.txt"
                         10%nat 0 0 2).
  - reflexivity.
  - reflexivity.
  - vm_compute. discriminate.
  - vm_compute. discriminate.
  - reflexivity.
  - reflexivity.
  - lia.
  - reflexivity.
Defined.

Lemma X5_capture_count_failure_witness :
  process faulty_env ["sregex"; "--jit"; "noinfo"; "in.txt"] =
  (Exit 2,
   mkWorld "" "failed to get capture count.
" 0 0 [EvCompile "noinfo" 0; EvFullinfo 40%nat 2]).
Proof.
  apply (X5_capture_count_failure faulty_env "sregex" ["--jit"] "noinfo"
                                  "in.txt" 40%nat (-3) 0).
  - reflexivity.
  - reflexivity.
  - vm_compute. discriminate.
  - vm_compute. discriminate.
  - reflexivity.
  - reflexivity.
  - lia.
Defined.

Lemma full_read (f : file) (len : Z) :
  0 <= len ->
  len <= Z.of_nat (List.length (f_data f)) ->
  (Z.of_nat (List.length (firstn (Z.to_nat len) (f_data f))) <? len) = false.
Proof.
  intros Hlo Hhi. apply Z.ltb_ge.
  rewrite length_firstn. lia.
Qed.

Lemma to_size_t_nonneg (z : Z) : 0 <= to_size_t z.
Proof. unfold to_size_t. apply Z.mod_pos_bound. lia. Qed.

(** The file is read to its end and closed: [main] goes on to the
    engines with the bytes of the file. *)
Lemma load_and_run_loaded (e : env) (re : pcre) (engine_types ncaps : Z)
    (path : string) (f : file) (w : world) :
  reaches_fread e path f ->
  to_size_t (f_tell f) <= Z.of_nat (List.length (f_data f)) ->
  f_close f = 0 ->
  load_and_run e re engine_types ncaps path w =
  (run_engines e re engine_types ncaps
               (bytes_read f (to_size_t (f_tell f))) (to_size_t (f_tell f)) ;;
   ret 0)
    (mkWorld (w_stdout w) (w_stderr w) 0 (w_clock w)
             (w_trace w ++ [EvFopen path; EvFseekEnd; EvFtell; EvFseekSet;
                            EvMalloc (to_size_t (f_tell f));
                            EvFread (to_size_t (f_tell f)); EvFclose])).
Proof.
  intros (Hopen & Hend & Htell & Hset & Hmalloc) Hfull Hclose.
  pose proof (full_read f (to_size_t (f_tell f))
                        (to_size_t_nonneg (f_tell f)) Hfull) as Hread.
  unfold load_and_run. run_io.
  repeat (progress (run_monad;
                    rewrite ?Hopen, ?Hend, ?Htell, ?Hset, ?Hmalloc, ?Hread,
                      ?Hclose;
                    cbn [Z.eqb negb andb])).
  rewrite <- !app_assoc. reflexivity.
Qed.

(** X4: the way to the engines.  With well-formed arguments, a pattern
    that compiles, a capture count that can be queried and a file that is
    measured, read to its end and closed, [main] calls [run_engines] with
    the handle of the pattern, the selection of the options, the capture
    count and the bytes of the file, and returns 0 when it returns.  The
    pattern is compiled once, with the case flag of the options, and the
    file is read and closed before the first engine starts. *)
Theorem X4_main_loads_then_runs (e : env) (prog : string)
    (opts : list string) (pattern path : string) (re : pcre) (rc ncaps : Z)
    (f : file) :
  forallb is_option opts = true ->
  Ascii.eqb (char_at0 pattern) "-"%char = false ->
  engines_after 0 opts <> 0 ->
  Z.of_nat (List.length (prog :: opts ++ [pattern; path])) <= INT_MAX ->
  pcre_compile e pattern (flags_after e 0 opts) = inl re ->
  pcre_fullinfo e re (PCRE_INFO_CAPTURECOUNT e) = (rc, ncaps) ->
  0 <= rc ->
  reaches_fread e path f ->
  to_size_t (f_tell f) <= Z.of_nat (List.length (f_data f)) ->
  f_close f = 0 ->
  main e (prog :: opts ++ [pattern; path]) init_world =
  (run_engines e re (engines_after 0 opts) ncaps
               (bytes_read f (to_size_t (f_tell f))) (to_size_t (f_tell f)) ;;
   ret 0)
    (mkWorld "" "" 0 0
       [EvCompile pattern (flags_after e 0 opts);
        EvFullinfo re (PCRE_INFO_CAPTURECOUNT e);
        EvFopen path; EvFseekEnd; EvFtell; EvFseekSet;
        EvMalloc (to_size_t (f_tell f));
        EvFread (to_size_t (f_tell f)); EvFclose]).
Proof.
  intros Hopts Hpat Hsome Hmax Hcompile Hinfo Hrc Hreach Hfull Hclose.
  rewrite main_two_positionals by assumption.
  run_monad. cbn [init_world w_stdout w_stderr w_errno w_clock w_trace].
  rewrite Hcompile. run_monad. rewrite Hinfo.
  apply Z.ltb_ge in Hrc. rewrite Hrc.
  now rewrite (load_and_run_loaded e re _ ncaps path f _ Hreach Hfull Hclose).
Qed.

Lemma X4_main_loads_then_runs_witness :
  main sample_env ["sregex"; "-i"; "--default"; "abc"; "in.txt"] init_world =
  (Ret 0,
   mkWorld "pcre default match (0, 3): 7 clock units elapsed.
(1 clock unit is 0.000001 sec)
" "" 0 2
     [EvCompile "abc" 1; EvFullinfo 11%nat 2; EvFopen "in.txt";
      EvFseekEnd; EvFtell; EvFseekSet; EvMalloc 6; EvFread 6; EvFclose;
      EvMalloc 12; EvStudy 11%nat 0; EvClock;
      EvExec 11%nat 0%nat
        [Byte.x41; Byte.x42; Byte.x43; Byte.x58; Byte.x59; Byte.x5a]
        6 0 0 3;
      EvClock]).
Proof.
  refine (eq_trans
            (X4_main_loads_then_runs sample_env "sregex" ["-i"; "--default"]
               "abc" "in.txt" 11%nat 0 0 sample_file _ _ _ _ _ _ _ _ _ _) _).
  - reflexivity.
  - reflexivity.
  - vm_compute. discriminate.
  - vm_compute. discriminate.
  - reflexivity.
  - reflexivity.
  - lia.
  - repeat split; reflexivity.
  - vm_compute. discriminate.
  - reflexivity.
  - reflexivity.
Defined.

(** ** What runs before the engines *)

Ltac file_error_branch :=
  left; split; [reflexivity |]; split; [reflexivity |];
  cbn [snd w_trace]; rewrite <- ?app_assoc;
  eexists; split; reflexivity.

(** [load_and_run] either returns 1 after calls on the file only, or goes
    on to [run_engines] after such calls. *)
Lemma load_and_run_cases (e : env) (re : pcre) (engine_types ncaps : Z)
    (path : string) (w : world) :
  (fst (load_and_run e re engine_types ncaps path w) = Ret 1
   /\ w_stdout (snd (load_and_run e re engine_types ncaps path w)) =
      w_stdout w
   /\ exists tr,
       w_trace (snd (load_and_run e re engine_types ncaps path w)) =
       w_trace w ++ tr
       /\ forallb (fun ev => negb (engine_event ev)) tr = true)
  \/ (exists input len w1,
         w_stdout w1 = w_stdout w
         /\ (exists tr,
                w_trace w1 = w_trace w ++ tr
                /\ forallb (fun ev => negb (engine_event ev)) tr = true)
         /\ load_and_run e re engine_types ncaps path w =
            (run_engines e re engine_types ncaps input len ;; ret 0) w1).
Proof.
  unfold load_and_run. run_io.
  destruct (fopen e path) as [f | en]; run_monad; [| file_error_branch].
  decide_test (f_seek_end f =? 0); [| file_error_branch].
  decide_test (f_tell f =? -1); [file_error_branch |].
  decide_test (f_seek_set f =? 0); [| file_error_branch].
  decide_test (malloc e (to_size_t (f_tell f))); [| file_error_branch].
  decide_test (Z.of_nat (List.length (firstn (Z.to_nat (to_size_t (f_tell f)))
                                             (f_data f)))
               <? to_size_t (f_tell f));
    [decide_test (f_eof f); [file_error_branch |] |].
  all: decide_test (f_close f =? 0); try file_error_branch.
  all: right; eexists _, _, (mkWorld _ _ _ _ _);
    (split; [cbn [w_stdout]; reflexivity |]);
    (split; [| reflexivity]);
    cbn [w_trace]; rewrite <- ?app_assoc;
    eexists; split; reflexivity.
Qed.

Lemma forallb_app_true {A} (p : A -> bool) (l1 l2 : list A) :
  forallb p l1 = true -> forallb p l2 = true -> forallb p (l1 ++ l2) = true.
Proof. intros H1 H2. rewrite forallb_app. now rewrite H1, H2. Qed.

(** With well-formed arguments [main] either returns 1 or 2 before any
    block has started, or goes on to [run_engines]. *)
Lemma main_cases (e : env) (prog : string) (opts : list string)
    (pattern path : string) :
  forallb is_option opts = true ->
  Ascii.eqb (char_at0 pattern) "-"%char = false ->
  engines_after 0 opts <> 0 ->
  Z.of_nat (List.length (prog :: opts ++ [pattern; path])) <= INT_MAX ->
  (exists s w,
      main e (prog :: opts ++ [pattern; path]) init_world = (Ret s, w)
      /\ (s = 1 \/ s = 2) /\ quiet w)
  \/ (exists re ncaps input len w1,
         quiet w1
         /\ main e (prog :: opts ++ [pattern; path]) init_world =
            (run_engines e re (engines_after 0 opts) ncaps input len ;;
             ret 0) w1).
Proof.
  intros Hopts Hpat Hsome Hmax.
  rewrite main_two_positionals by assumption.
  run_monad. cbn [init_world w_stdout w_stderr w_errno w_clock w_trace app].
  destruct (pcre_compile e pattern (flags_after e 0 opts))
    as [re | [errstr off]]; run_monad.
  2: { left. eexists _, _. split; [reflexivity |].
       split; [now right | now split]. }
  destruct (pcre_fullinfo e re (PCRE_INFO_CAPTURECOUNT e)) as [rc ncaps].
  destruct (rc <? 0).
  { left. eexists _, _. split; [reflexivity |].
    split; [now right | now split]. }
  match goal with
  | |- context [load_and_run e re ?et ncaps path ?w0] =>
      destruct (load_and_run_cases e re et ncaps path w0)
        as [(Hret & Hout & tr & Htr & Hcalls)
           | (input & len & w1 & Hout & (tr & Htr & Hcalls) & Hrun)];
      [destruct (load_and_run e re et ncaps path w0) as [o w'] |]
  end.
  - cbn [fst snd w_stdout w_trace] in *. subst o.
    left. exists 1, w'. split; [reflexivity |]. split; [now left |].
    split; [assumption |]. rewrite Htr. now apply forallb_app_true.
  - right. exists re, ncaps, input, len, w1. split; [| assumption].
    cbn [w_stdout w_trace] in *.
    split; [assumption |]. rewrite Htr. now apply forallb_app_true.
Qed.

Lemma run_engines_exit_2 (e : env) (re : pcre) (engine_types ncaps : Z)
    (input : list byte) (len : Z) (w w' : world) (s : Z) :
  run_engines e re engine_types ncaps input len w = (Exit s, w') -> s = 2.
Proof.
  intros Hrun.
  destruct (run_engines_summary e re engine_types ncaps input len w)
    as (out & err & tr & _ & _ & _ & Hexit).
  rewrite Hrun in Hexit. now destruct (Hexit s eq_refl).
Qed.

(** X7: a process that exits with status 1 has printed nothing on
    standard output and has run no engine: no call of [pcre_study], of
    [clock] or of a match routine was made. *)
Theorem X7_status_1_before_engines (e : env) (argv : list string)
    (w : world) :
  Z.of_nat (List.length argv) <= INT_MAX ->
  process e argv = (Exit 1, w) ->
  quiet w.
Proof.
  intros Hmax Hp.
  destruct (command_line_cases e argv Hmax)
    as [[msg Hmsg] | (prog & opts & pattern & path & -> & Hopts & Hsome & Hpat)].
  - rewrite Hmsg in Hp. inversion Hp; subst. now split.
  - unfold process in Hp.
    destruct (main_cases e prog opts pattern path Hopts Hpat Hsome Hmax)
      as [(s & w0 & Hmain & _ & Hquiet)
         | (re & ncaps & input & len & w1 & _ & Hmain)];
      rewrite Hmain in Hp.
    + now inversion Hp; subst.
    + unfold bind in Hp.
      destruct (run_engines e re (engines_after 0 opts) ncaps input len w1)
        as [[[] | s | |] w2] eqn:Hrun; cbn [ret] in Hp;
        try discriminate.
      inversion Hp; subst.
      now apply run_engines_exit_2 in Hrun.
Qed.

Lemma X7_status_1_before_engines_witness :
  quiet (mkWorld "" "file truncated.
" 0 0
           [EvCompile "abc" 0; EvFullinfo 10%nat 2; EvFopen "short.txt";
            EvFseekEnd; EvFtell; EvFseekSet; EvMalloc 6; EvFread 6]).
Proof.
  apply (X7_status_1_before_engines faulty_env
           ["sregex"; "--dfa"; "abc"; "short.txt"]).
  - vm_compute. discriminate.
  - vm_compute. reflexivity.
Defined.

(** X14: a process that exits with status 0 was given well-formed
    arguments, and its standard output is one line for each selected
    engine, in the order Default, JIT, DFA, each with the name of the
    engine at its beginning and the elapsed time at its end, followed by
    the line with the clock unit. *)
Theorem X14_status_0_output (e : env) (argv : list string) (w : world) :
  Z.of_nat (List.length argv) <= INT_MAX ->
  process e argv = (Exit 0, w) ->
  exists prog opts pattern path lines,
    argv = prog :: opts ++ [pattern; path]
    /\ forallb is_option opts = true
    /\ Forall2 engine_line (selected_engines (engines_after 0 opts)) lines
    /\ w_stdout w = (concat_lines lines ++ footer_text e)%string.
Proof.
  intros Hmax Hp.
  destruct (command_line_cases e argv Hmax)
    as [[msg Hmsg] | (prog & opts & pattern & path & -> & Hopts & Hsome & Hpat)].
  - rewrite Hmsg in Hp. discriminate.
  - unfold process in Hp.
    destruct (main_cases e prog opts pattern path Hopts Hpat Hsome Hmax)
      as [(s & w0 & Hmain & Hs & _)
         | (re & ncaps & input & len & w1 & [Hquiet _] & Hmain)];
      rewrite Hmain in Hp.
    + inversion Hp; subst. lia.
    + unfold bind in Hp.
      destruct (run_engines_summary e re (engines_after 0 opts) ncaps
                                    input len w1)
        as (out & err & tr & [Ho _ _ _] & _ & Hret & _).
      destruct (run_engines e re (engines_after 0 opts) ncaps input len w1)
        as [[[] | s | |] w2] eqn:Hrun; cbn [ret fst snd] in *;
        try discriminate.
      * inversion Hp; subst.
        destruct (Hret eq_refl) as (_ & _ & lines & Hlines & ->).
        exists prog, opts, pattern, path, lines.
        split; [reflexivity |]. split; [assumption |].
        split; [assumption |]. rewrite Ho, Hquiet. reflexivity.
      * inversion Hp; subst. now apply run_engines_exit_2 in Hrun.
Qed.

Lemma X14_status_0_output_witness :
  exists prog opts pattern path lines,
    ["sregex"; "--dfa"; "-i"; "--default"; "abc"; "in.txt"] =
    prog :: opts ++ [pattern; path]
    /\ forallb is_option opts = true
    /\ Forall2 engine_line (selected_engines (engines_after 0 opts)) lines
    /\ w_stdout
         (snd (process sample_env
                 ["sregex"; "--dfa"; "-i"; "--default"; "abc"; "in.txt"])) =
       (concat_lines lines ++ footer_text sample_env)%string.
Proof.
  apply (X14_status_0_output sample_env
           ["sregex"; "--dfa"; "-i"; "--default"; "abc"; "in.txt"]).
  - vm_compute. discriminate.
  - vm_compute. reflexivity.
Defined.

(** ** The printing loop *)

Lemma skipn_two {A} (l : list A) :
  forall k a b,
    nth_error l k = Some a ->
    nth_error l (S k) = Some b ->
    skipn k l = a :: b :: skipn (S (S k)) l.
Proof.
  induction l as [| x l IH]; intros k a b Ha Hb.
  - destruct k; discriminate.
  - destruct k as [| k].
    + cbn in Ha, Hb. injection Ha as ->.
      destruct l as [| y l]; [discriminate |]. cbn in Hb.
      injection Hb as ->. reflexivity.
    + cbn [nth_error] in Ha, Hb. cbn [skipn]. now apply IH.
Qed.

Lemma read_int_nat (a : list Z) (k : nat) :
  read_int a (Z.of_nat k) =
  match nth_error a k with
  | Some v => ret v
  | None => undef
  end.
Proof.
  unfold read_int.
  replace (Z.of_nat k <? 0) with false by (symmetry; apply Z.ltb_ge; lia).
  now rewrite Nat2Z.id.
Qed.

Lemma print_pairs_in_bounds (ovector : list Z) (count : nat) :
  forall k w,
    (k + 2 * count <= List.length ovector)%nat ->
    print_pairs count (Z.of_nat k) ovector w =
    (Ret tt,
     mkWorld (w_stdout w ++ pairs_text (firstn (2 * count) (skipn k ovector)))
             (w_stderr w) (w_errno w) (w_clock w) (w_trace w)).
Proof.
  induction count as [| count IH]; intros k w Hlen.
  - cbn [print_pairs Nat.mul firstn pairs_text]. unfold ret.
    rewrite string_app_nil_r. now destruct w.
  - cbn [print_pairs].
    destruct (nth_error ovector k) as [a |] eqn:Ha;
      [| apply nth_error_None in Ha; lia].
    destruct (nth_error ovector (S k)) as [b |] eqn:Hb;
      [| apply nth_error_None in Hb; lia].
    replace (Z.of_nat k + 1) with (Z.of_nat (S k)) by lia.
    replace (Z.of_nat k + 2) with (Z.of_nat (S (S k))) by lia.
    unfold bind at 1. rewrite read_int_nat, Ha. cbn [ret].
    unfold bind at 1. rewrite read_int_nat, Hb. cbn [ret].
    unfold bind at 1. cbn [printf].
    rewrite IH by lia.
    cbn [w_stdout w_stderr w_errno w_clock w_trace].
    rewrite (skipn_two ovector k a b Ha Hb).
    replace (2 * S count)%nat with (S (S (2 * count))) by lia.
    cbn [firstn pairs_text].
    now rewrite string_app_assoc.
Qed.

Lemma print_pairs_out_of_bounds (ovector : list Z) (count : nat) :
  forall k w,
    (k <= List.length ovector)%nat ->
    (List.length ovector < k + 2 * count)%nat ->
    fst (print_pairs count (Z.of_nat k) ovector w) = Undef.
Proof.
  induction count as [| count IH]; intros k w Hk Hlen; [lia |].
  cbn [print_pairs].
  replace (Z.of_nat k + 1) with (Z.of_nat (S k)) by lia.
  replace (Z.of_nat k + 2) with (Z.of_nat (S (S k))) by lia.
  unfold bind at 1. rewrite read_int_nat.
  destruct (nth_error ovector k) as [a |] eqn:Ha; [| reflexivity].
  cbn [ret]. unfold bind at 1. rewrite read_int_nat.
  destruct (nth_error ovector (S k)) as [b |] eqn:Hb; [| reflexivity].
  cbn [ret]. unfold bind at 1. cbn [printf].
  assert (S k < List.length ovector)%nat
    by (apply nth_error_Some; congruence).
  apply IH; lia.
Qed.

(** X8: the loop that prints the pairs.  For [count] pairs and a buffer
    of at least [2 * count] integers it prints them in order, two
    integers to a pair, as [ (a, b)], and touches nothing else; for a
    shorter buffer it reads outside the buffer. *)
Theorem X8_print_pairs (ovector : list Z) (count : nat) (w : world) :
  ((2 * count <= List.length ovector)%nat ->
   print_pairs count 0 ovector w =
   (Ret tt,
    mkWorld (w_stdout w ++ pairs_text (firstn (2 * count) ovector))
            (w_stderr w) (w_errno w) (w_clock w) (w_trace w)))
  /\ ((List.length ovector < 2 * count)%nat ->
      fst (print_pairs count 0 ovector w) = Undef).
Proof.
  split; intros Hlen.
  - now apply (print_pairs_in_bounds ovector count 0%nat w).
  - apply (print_pairs_out_of_bounds ovector count 0%nat w); [lia |].
    exact Hlen.
Qed.

Lemma X8_print_pairs_witness :
  print_pairs 2 0 [0; 5; 1; 2; -1; -1] init_world =
  (Ret tt, mkWorld " (0, 5) (1, 2)" "" 0 0 [])
  /\ fst (print_pairs 2 0 [0; 5; 1] init_world) = Undef.
Proof.
  split.
  - apply (proj1 (X8_print_pairs [0; 5; 1; 2; -1; -1] 2 init_world)).
    cbn. lia.
  - apply (proj2 (X8_print_pairs [0; 5; 1] 2 init_world)).
    cbn. lia.
Defined.

(** ** The line of a match *)

Lemma source_block_eq (e : env) (eng : engine) :
  source_block e eng = engine_block e eng.
Proof. now destruct eng. Qed.

Lemma report_match (e : env) (rc : Z) (ovector : list Z) (elapsed : Z)
    (w : world) :
  0 < rc ->
  rc <> PCRE_ERROR_NOMATCH e ->
  (2 * Z.to_nat rc <= List.length ovector)%nat ->
  report e rc ovector elapsed w =
  (Ret tt,
   mkWorld (w_stdout w ++ "match" ++
            pairs_text (firstn (2 * Z.to_nat rc) ovector) ++
            elapsed_text elapsed)
           (w_stderr w) (w_errno w) (w_clock w) (w_trace w)).
Proof.
  intros Hpos Hne Hlen. unfold report.
  apply Z.eqb_neq in Hne. rewrite Hne.
  replace (rc <? 0) with false by (symmetry; apply Z.ltb_ge; lia).
  replace (rc >? 0) with true by (symmetry; apply Z.gtb_lt; lia).
  run_monad.
  match goal with
  | |- context [print_pairs ?c 0 ?ov ?w1] =>
      pose proof (print_pairs_in_bounds ov c 0%nat w1 Hlen) as Hprint
  end.
  cbn [Z.of_nat skipn w_stdout w_stderr w_errno w_clock w_trace] in Hprint.
  rewrite Hprint.
  cbn [w_stdout w_stderr w_errno w_clock w_trace].
  now rewrite !string_app_assoc.
Qed.

Lemma report_short_buffer (e : env) (rc : Z) (ovector : list Z)
    (elapsed : Z) (w : world) :
  0 < rc ->
  (List.length ovector < 2 * Z.to_nat rc)%nat ->
  fst (report e rc ovector elapsed w) = Undef.
Proof.
  intros Hpos Hlen. unfold report.
  replace (rc <? 0) with false by (symmetry; apply Z.ltb_ge; lia).
  replace (rc >? 0) with true by (symmetry; apply Z.gtb_lt; lia).
  destruct (rc =? PCRE_ERROR_NOMATCH e); run_monad;
    match goal with
    | |- context [print_pairs ?c 0 ?ov ?w1] =>
        pose proof (print_pairs_out_of_bounds ov c 0%nat w1 (Nat.le_0_l _)
                                              Hlen) as Hprint;
        cbn [Z.of_nat] in Hprint;
        destruct (print_pairs c 0 ov w1) as [o w2]
    end;
    cbn [fst] in Hprint; subst o; reflexivity.
Qed.

(** When [report] returns for a return value other than 0, the value is
    positive and the pairs were inside the buffer. *)
Lemma report_returns (e : env) (rc : Z) (ovector : list Z) (elapsed : Z)
    (w : world) :
  PCRE_ERROR_NOMATCH e < 0 ->
  rc <> 0 ->
  fst (report e rc ovector elapsed w) = Ret tt ->
  0 < rc /\ (2 * Z.to_nat rc <= List.length ovector)%nat.
Proof.
  intros Hneg Hnz Hret.
  destruct (Z.lt_ge_cases rc 0) as [Hlt | Hge].
  - rewrite report_negative in Hret by assumption. discriminate.
  - assert (Hpos : 0 < rc) by lia. split; [assumption |].
    destruct (Nat.le_gt_cases (2 * Z.to_nat rc) (List.length ovector))
      as [Hin | Hout]; [assumption |].
    rewrite (report_short_buffer e rc ovector elapsed w Hpos Hout) in Hret.
    discriminate.
Qed.

Lemma after_match_reported (e : env) (eng : engine) (rc : Z)
    (ovector : list Z) (elapsed : Z) (w : world) :
  0 < reported_count eng rc ->
  after_match e eng rc ovector elapsed w =
  report e (reported_count eng rc) ovector elapsed w.
Proof.
  intros Hpos. destruct eng; cbn [after_match reported_count] in *;
    try reflexivity;
    replace (rc =? 0) with false by (symmetry; apply Z.eqb_neq; lia);
    reflexivity.
Qed.

Lemma block_match_line (e : env) (eng : engine) (re : pcre) (ncaps : Z)
    (input : list byte) (len : Z) (w : world) (rc : Z) (ovector : list Z) :
  match_returns e eng re ncaps input len w rc ovector ->
  0 < reported_count eng rc ->
  reported_count eng rc <> PCRE_ERROR_NOMATCH e ->
  (2 * Z.to_nat (reported_count eng rc) <= List.length ovector)%nat ->
  source_block e eng re ncaps input len w =
  (Ret tt,
   mkWorld (w_stdout w ++ engine_name eng ++ "match" ++
            pairs_text (firstn (2 * Z.to_nat (reported_count eng rc))
                               ovector) ++
            elapsed_text (elapsed_at e w))
           (w_stderr w) (w_errno w) (S (S (w_clock w)))
           (w_trace w ++ engine_events e eng re ncaps input len)).
Proof.
  intros Hmatch Hpos Hne Hlen. rewrite source_block_eq.
  rewrite (engine_block_reaches _ _ _ _ _ _ _ _ _ Hmatch).
  rewrite after_match_reported by assumption.
  rewrite report_match by assumption.
  unfold world_after_match.
  cbn [w_stdout w_stderr w_errno w_clock w_trace].
  now rewrite string_app_assoc.
Qed.


(** X9: the line of a match.  When the match routine of an engine
    returns a positive number [rc] of pairs that are inside the buffer
    (for the DFA engine, also when it returns 0, which counts as 1), the
    block prints the name of the engine, "match", the [rc] pairs in the
    order of the buffer and the elapsed time on one line of standard
    output, writes nothing to standard error, and returns. *)
Theorem X9_match_line (e : env) (eng : engine) (re : pcre) (ncaps : Z)
    (input : list byte) (len : Z) (w : world) (rc : Z) (ovector : list Z) :
  match_returns e eng re ncaps input len w rc ovector ->
  0 < reported_count eng rc ->
  reported_count eng rc <> PCRE_ERROR_NOMATCH e ->
  (2 * Z.to_nat (reported_count eng rc) <= List.length ovector)%nat ->
  source_block e eng re ncaps input len w =
  (Ret tt,
   mkWorld (w_stdout w ++ engine_name eng ++ "match" ++
            pairs_text (firstn (2 * Z.to_nat (reported_count eng rc))
                               ovector) ++
            elapsed_text (elapsed_at e w))
           (w_stderr w) (w_errno w) (S (S (w_clock w)))
           (w_trace w ++ engine_events e eng re ncaps input len)).
Proof. apply block_match_line. Qed.

Lemma X9_match_line_witness :
  source_block sample_env JIT 11%nat 0 [Byte.x41; Byte.x42; Byte.x43] 3
               init_world =
  (Ret tt,
   mkWorld "pcre JIT match (0, 3): 7 clock units elapsed.
" "" 0 2
     [EvMalloc 12; EvStudy 11%nat 1; EvClock;
      EvExec 11%nat 1%nat [Byte.x41; Byte.x42; Byte.x43] 3 0 0 3; EvClock]).
Proof.
  apply (X9_match_line sample_env JIT 11%nat 0
                       [Byte.x41; Byte.x42; Byte.x43] 3 init_world 1
                       [0; 3; 0]).
  - repeat split; reflexivity.
  - reflexivity.
  - discriminate.
  - cbn. lia.
Defined.

(** X10: the printing loop stays inside the buffer.  When the library
    keeps to its contract, that the buffer comes back with the size it
    was given and that the match routine reports at most [max_pairs]
    pairs, a block whose match routine returns a match never reads
    outside the buffer: it returns. *)
Theorem X10_pairs_inside_buffer (e : env) (eng : engine) (re : pcre)
    (ncaps : Z) (input : list byte) (len : Z) (w : world) (rc : Z)
    (ovector : list Z) :
  match_returns e eng re ncaps input len w rc ovector ->
  PCRE_ERROR_NOMATCH e < 0 ->
  0 <= ncaps ->
  3 * (ncaps + 1) <= INT_MAX ->
  0 < reported_count eng rc <= max_pairs eng ncaps ->
  Z.of_nat (List.length ovector) = engine_ovecsize eng ncaps ->
  fst (source_block e eng re ncaps input len w) = Ret tt.
Proof.
  intros Hmatch Hneg Hlo Hhi [Hpos Hle] Hsize.
  rewrite (block_match_line e eng re ncaps input len w rc ovector);
    try assumption; try reflexivity; try lia.
  destruct (ovecsize_in_range ncaps Hlo Hhi) as (Hvec & _).
  destruct eng; cbn [engine_ovecsize max_pairs] in Hsize, Hle;
    rewrite ?Hvec in Hsize; lia.
Qed.

Lemma X10_pairs_inside_buffer_witness :
  fst (source_block sample_env Default 11%nat 0
                    [Byte.x41; Byte.x42; Byte.x43] 3 init_world) = Ret tt.
Proof.
  apply (X10_pairs_inside_buffer sample_env Default 11%nat 0
           [Byte.x41; Byte.x42; Byte.x43] 3 init_world 1 [0; 3; 0]).
  - repeat split; reflexivity.
  - reflexivity.
  - lia.
  - unfold INT_MAX. lia.
  - cbn. lia.
  - reflexivity.
Defined.

(** X15: a block that returns has printed a match.  For a no-match value
    that is negative, whenever the block of an engine returns, the match
    routine was called, the return value the block goes by was positive,
    and the one line the block printed is the name of the engine,
    "match", that many pairs and the elapsed time: no block returns after
    printing "no match", and none returns without a pair. *)
Theorem X15_returning_block_matched (e : env) (eng : engine) (re : pcre)
    (ncaps : Z) (input : list byte) (len : Z) (w w' : world) :
  PCRE_ERROR_NOMATCH e < 0 ->
  source_block e eng re ncaps input len w = (Ret tt, w') ->
  exists rc ovector,
    match_returns e eng re ncaps input len w rc ovector
    /\ 0 < reported_count eng rc
    /\ w' =
       mkWorld (w_stdout w ++ engine_name eng ++ "match" ++
                pairs_text (firstn (2 * Z.to_nat (reported_count eng rc))
                                   ovector) ++
                elapsed_text (elapsed_at e w))
               (w_stderr w) (w_errno w) (S (S (w_clock w)))
               (w_trace w ++ engine_events e eng re ncaps input len).
Proof.
  intros Hneg Hret. rewrite source_block_eq in Hret.
  pose proof Hret as Hrun.
  rewrite engine_block_unfold in Hrun. cbv zeta in Hrun.
  destruct (malloc e (to_size_t (engine_ovecsize eng ncaps * sizeof_int)))
    eqn:Hmalloc; [| discriminate].
  destruct (snd (pcre_study e re (study_options e eng))) eqn:Hstudy;
    [discriminate |].
  destruct (clock e (w_clock w) =? -1) eqn:Hbegin; [discriminate |].
  destruct (to_long (clock e (S (w_clock w)) - clock e (w_clock w)) <? 0)
    eqn:Helapsed; [discriminate |].
  destruct (engine_answer e eng re
              (fst (pcre_study e re (study_options e eng))) input len
              (engine_ovecsize eng ncaps)) as [rc ovector] eqn:Hanswer.
  cbn [fst snd] in Hrun.
  exists rc, ovector.
  assert (Hmatch : match_returns e eng re ncaps input len w rc ovector)
    by (repeat split; assumption).
  split; [assumption |].
  assert (Hnz : reported_count eng rc <> 0
                /\ after_match e eng rc ovector (elapsed_at e w)
                     (world_after_match e eng re ncaps input len w) =
                   report e (reported_count eng rc) ovector (elapsed_at e w)
                     (world_after_match e eng re ncaps input len w)).
  { fold (elapsed_at e w) in Hrun.
    fold (world_after_match e eng re ncaps input len w) in Hrun.
    destruct eng; cbn [after_match reported_count] in Hrun |- *;
      destruct (rc =? 0) eqn:Hz; try discriminate;
      try (apply Z.eqb_neq in Hz);
      (split; [lia || assumption | reflexivity]). }
  destruct Hnz as [Hnz Hafter].
  fold (elapsed_at e w) in Hrun.
  fold (world_after_match e eng re ncaps input len w) in Hrun.
  rewrite Hafter in Hrun.
  assert (Hfst : fst (report e (reported_count eng rc) ovector
                             (elapsed_at e w)
                             (world_after_match e eng re ncaps input len w))
                 = Ret tt) by now rewrite Hrun.
  destruct (report_returns e _ _ _ _ Hneg Hnz Hfst) as [Hpos Hlen].
  split; [assumption |].
  assert (Hne : reported_count eng rc <> PCRE_ERROR_NOMATCH e) by lia.
  pose proof (block_match_line e eng re ncaps input len w rc ovector Hmatch
                               Hpos Hne Hlen) as Hline.
  rewrite source_block_eq in Hline. rewrite Hline in Hret.
  now inversion Hret.
Qed.

Lemma X15_returning_block_matched_witness :
  exists rc ovector,
    match_returns sample_env DFA 11%nat 0 [Byte.x41] 1 init_world rc ovector
    /\ 0 < reported_count DFA rc
    /\ mkWorld "pcre DFA match (0, 3): 7 clock units elapsed.
" "" 0 2
         [EvMalloc 8; EvStudy 11%nat 0; EvClock;
          EvDfaExec 11%nat 0%nat [Byte.x41] 1 0 0 2 100; EvClock] =
       mkWorld (w_stdout init_world ++ engine_name DFA ++ "match" ++
                pairs_text (firstn (2 * Z.to_nat (reported_count DFA rc))
                                   ovector) ++
                elapsed_text (elapsed_at sample_env init_world))
               (w_stderr init_world) (w_errno init_world)
               (S (S (w_clock init_world)))
               (w_trace init_world ++
                engine_events sample_env DFA 11%nat 0 [Byte.x41] 1).
Proof.
  apply (X15_returning_block_matched sample_env DFA 11%nat 0 [Byte.x41] 1
                                     init_world).
  - reflexivity.
  - reflexivity.
Defined.

(** ** Failures before the result *)

(** X11: when [pcre_study] reports an error, the block has printed the
    name of the engine on standard output, prints "failed to study the
    regex: " and the message on standard error, without a newline, and
    the process exits with status 2: the clock is not read and the match
    routine is not called. *)
Theorem X11_study_failure (e : env) (eng : engine) (re : pcre) (ncaps : Z)
    (input : list byte) (len : Z) (w : world) (msg : string) :
  malloc e (to_size_t (engine_ovecsize eng ncaps * sizeof_int)) = true ->
  snd (pcre_study e re (study_options e eng)) = Some msg ->
  source_block e eng re ncaps input len w =
  (Exit 2,
   mkWorld (w_stdout w ++ engine_name eng)
           (w_stderr w ++ "failed to study the regex: " ++ msg)
           (w_errno w) (w_clock w)
           (w_trace w ++
            [EvMalloc (to_size_t (engine_ovecsize eng ncaps * sizeof_int));
             EvStudy re (study_options e eng)])).
Proof.
  intros Hmalloc Hstudy. rewrite source_block_eq, engine_block_unfold.
  cbv zeta. now rewrite Hmalloc, Hstudy.
Qed.

Lemma X11_study_failure_witness :
  source_block faulty_env JIT 41%nat 0 [Byte.x41] 1 init_world =
  (Exit 2,
   mkWorld "pcre JIT " "failed to study the regex: out of memory" 0 0
           [EvMalloc 12; EvStudy 41%nat 1]).
Proof.
  apply (X11_study_failure faulty_env JIT 41%nat 0 [Byte.x41] 1 init_world
                           "out of memory").
  - reflexivity.
  - reflexivity.
Defined.

(** X12: the failures of the clock.  When the reading before the match
    is -1, the block reports it with [perror("clock")] and the process
    exits with status 2 without calling the match routine.  When the time
    elapsed over the match is negative, the block does the same after the
    match routine has run, and its result is not printed. *)
Theorem X12_clock_failure (e : env) (eng : engine) (re : pcre) (ncaps : Z)
    (input : list byte) (len : Z) (w : world) :
  malloc e (to_size_t (engine_ovecsize eng ncaps * sizeof_int)) = true ->
  snd (pcre_study e re (study_options e eng)) = None ->
  (clock e (w_clock w) = -1 ->
   source_block e eng re ncaps input len w =
   (Exit 2,
    mkWorld (w_stdout w ++ engine_name eng)
            (w_stderr w ++ "clock: " ++ strerror e (w_errno w) ++ "
")
            (w_errno w) (S (w_clock w))
            (w_trace w ++
             [EvMalloc (to_size_t (engine_ovecsize eng ncaps * sizeof_int));
              EvStudy re (study_options e eng);
              EvClock])))
  /\ (clock e (w_clock w) <> -1 ->
      elapsed_at e w < 0 ->
      source_block e eng re ncaps input len w =
      (Exit 2,
       mkWorld (w_stdout w ++ engine_name eng)
               (w_stderr w ++ "clock: " ++ strerror e (w_errno w) ++ "
")
               (w_errno w) (S (S (w_clock w)))
               (w_trace w ++ engine_events e eng re ncaps input len))).
Proof.
  intros Hmalloc Hstudy. split.
  - intros Hbegin. rewrite source_block_eq, engine_block_unfold.
    cbv zeta. rewrite Hmalloc, Hstudy, Hbegin. reflexivity.
  - intros Hbegin Helapsed. rewrite source_block_eq, engine_block_unfold.
    cbv zeta. rewrite Hmalloc, Hstudy.
    apply Z.eqb_neq in Hbegin. rewrite Hbegin.
    unfold elapsed_at in Helapsed. apply Z.ltb_lt in Helapsed.
    rewrite Helapsed. reflexivity.
Qed.

Lemma X12_clock_failure_witness :
  source_block faulty_env Default 11%nat 0 [Byte.x41] 1
               (mkWorld "" "" 0 10 []) =
  (Exit 2,
   mkWorld "pcre default " "clock: Error 0
" 0 11 [EvMalloc 12; EvStudy 11%nat 0; EvClock])
  /\ source_block faulty_env DFA 11%nat 0 [Byte.x41] 1
                  (mkWorld "" "" 0 20 []) =
     (Exit 2,
      mkWorld "pcre DFA " "clock: Error 0
" 0 22
        [EvMalloc 8; EvStudy 11%nat 0; EvClock;
         EvDfaExec 11%nat 0%nat [Byte.x41] 1 0 0 2 100; EvClock]).
Proof.
  split.
  - apply (proj1 (X12_clock_failure faulty_env Default 11%nat 0 [Byte.x41] 1
                                    (mkWorld "" "" 0 10 [])
                                    eq_refl eq_refl)).
    reflexivity.
  - apply (proj2 (X12_clock_failure faulty_env DFA 11%nat 0 [Byte.x41] 1
                                    (mkWorld "" "" 0 20 [])
                                    eq_refl eq_refl)).
    + vm_compute. discriminate.
    + vm_compute. reflexivity.
Defined.

(** X13: when the buffer of an engine cannot be allocated, the assertion
    fails: its diagnostic is written to standard error and the process
    aborts, before the name of the engine is printed and before any call
    to the library. *)
Theorem X13_allocation_failure (e : env) (eng : engine) (re : pcre)
    (ncaps : Z) (input : list byte) (len : Z) (w : world) :
  malloc e (to_size_t (engine_ovecsize eng ncaps * sizeof_int)) = false ->
  source_block e eng re ncaps input len w =
  (Abort,
   mkWorld (w_stdout w)
           (w_stderr w ++
            assert_text e "ovector" "run_engines" (assert_line eng))
           (w_errno w) (w_clock w)
           (w_trace w ++
            [EvMalloc (to_size_t (engine_ovecsize eng ncaps * sizeof_int))])).
Proof.
  intros Hmalloc. rewrite source_block_eq, engine_block_unfold.
  cbv zeta. now rewrite Hmalloc.
Qed.

Lemma X13_allocation_failure_witness :
  source_block faulty_env Default 11%nat 99 [Byte.x41] 1 init_world =
  (Abort,
   mkWorld "" "pcre.c:166: run_engines: Assertion `ovector' failed.
" 0 0 [EvMalloc 1200]).
Proof.
  apply (X13_allocation_failure faulty_env Default 11%nat 99 [Byte.x41] 1
                                init_world).
  reflexivity.
Defined.

(** ** What the engines are called with *)

Lemma engine_events_call_on (e : env) (eng : engine) (re : pcre) (ncaps : Z)
    (input : list byte) (len : Z) :
  Forall (call_on re input (to_int len))
         (engine_events e eng re ncaps input len).
Proof.
  unfold engine_events.
  destruct eng; repeat constructor.
Qed.

Lemma all_events_call_on (e : env) (engines : list engine) (re : pcre)
    (ncaps : Z) (input : list byte) (len : Z) :
  Forall (call_on re input (to_int len))
         (all_events e engines re ncaps input len).
Proof.
  induction engines as [| eng engines IH].
  - constructor.
  - unfold all_events. cbn [map List.concat]. apply Forall_app.
    split; [apply engine_events_call_on | exact IH].
Qed.

(** X19: every call [run_engines] makes is an allocation, a reading of
    the clock, or a call of [pcre_study] or of a match routine on the
    compiled pattern it was given; and every match is run on the input
    buffer, from offset 0 and without options, with the length [len]
    converted to [int]: the length of the buffer itself when it is at
    most [INT_MAX], and the length wrapped to 32 bits otherwise, so that
    for a buffer of 2^31 bytes the match routines are given a negative
    length.  The pattern is not compiled again and no file is touched. *)
Theorem X19_engine_calls (e : env) (re : pcre) (engine_types ncaps : Z)
    (input : list byte) (len : Z) (w : world) :
  exists tr,
    w_trace (snd (run_engines e re engine_types ncaps input len w)) =
    w_trace w ++ tr
    /\ Forall (call_on re input (to_int len)) tr
    /\ (0 <= len <= INT_MAX -> Forall (call_on re input len) tr)
    /\ (len = 2 ^ 31 -> Forall (call_on re input (- 2 ^ 31)) tr).
Proof.
  destruct (run_engines_summary e re engine_types ncaps input len w)
    as (out & err & tr & Hext & [rest Hpre] & _).
  exists tr. split; [apply Hext |].
  pose proof (all_events_call_on e (selected_engines engine_types) re ncaps
                                 input len) as Hall.
  rewrite Hpre in Hall. apply Forall_app in Hall as [Hall _].
  split; [exact Hall |].
  split.
  - intros Hlen. rewrite to_int_small in Hall; [exact Hall |].
    unfold INT_MAX in Hlen. lia.
  - intros ->. exact Hall.
Qed.

Lemma X19_engine_calls_witness :
  exists tr,
    w_trace (snd (run_engines sample_env 11%nat 5 0
                              [Byte.x41; Byte.x42; Byte.x43] 3 init_world)) =
    tr
    /\ Forall (call_on 11%nat [Byte.x41; Byte.x42; Byte.x43] 3) tr.
Proof.
  destruct (X19_engine_calls sample_env 11%nat 5 0
                             [Byte.x41; Byte.x42; Byte.x43] 3 init_world)
    as (tr & Htr & _ & Hon & _).
  exists tr. split; [exact Htr |].
  apply Hon. unfold INT_MAX. lia.
Defined.

(** ** Failures while loading the file *)

(** X16: a file that ends before the length [ftell] reported.  [main]
    prints "file truncated." on standard error and returns 1; the stream
    is not closed and no engine runs. *)
Theorem X16_truncated_file (e : env) (re : pcre) (engine_types ncaps : Z)
    (path : string) (f : file) (w : world) :
  reaches_fread e path f ->
  Z.of_nat (List.length (f_data f)) < to_size_t (f_tell f) ->
  f_eof f = true ->
  load_and_run e re engine_types ncaps path w =
  (Ret 1,
   mkWorld (w_stdout w) (w_stderr w ++ "file truncated.
") 0 (w_clock w)
     (w_trace w ++ [EvFopen path; EvFseekEnd; EvFtell; EvFseekSet;
                    EvMalloc (to_size_t (f_tell f));
                    EvFread (to_size_t (f_tell f))])).
Proof.
  intros Hreach Hshort Heof.
  apply (load_and_run_truncated e re engine_types ncaps path f w Hreach);
    [| assumption].
  unfold bytes_read. rewrite length_firstn. lia.
Qed.

Lemma X16_truncated_file_witness :
  load_and_run faulty_env 11%nat 1 0 "short.txt" init_world =
  (Ret 1,
   mkWorld "" "file truncated.
" 0 0
     [EvFopen "short.txt"; EvFseekEnd; EvFtell; EvFseekSet; EvMalloc 6;
      EvFread 6]).
Proof.
  apply (X16_truncated_file faulty_env 11%nat 1 0 "short.txt" truncated_file
                            init_world).
  - repeat split; reflexivity.
  - vm_compute. reflexivity.
  - reflexivity.
Defined.

(** X17: when the buffer for the file cannot be allocated, [main] prints
    "failed to allocate <length> bytes." on standard error and returns 1
    without reading the file.  For an empty file the length is 0, so that
    an allocator that gives NULL for a request of 0 bytes makes the
    harness fail on every empty file. *)
Theorem X17_input_allocation_failure (e : env) (re : pcre)
    (engine_types ncaps : Z) (path : string) (f : file) (w : world) :
  fopen e path = inl f ->
  f_seek_end f = 0 ->
  f_tell f <> -1 ->
  f_seek_set f = 0 ->
  malloc e (to_size_t (f_tell f)) = false ->
  load_and_run e re engine_types ncaps path w =
  (Ret 1,
   mkWorld (w_stdout w)
           (w_stderr w ++ "failed to allocate " ++
            fmt_d (to_long (to_size_t (f_tell f))) ++ " bytes.
")
           0 (w_clock w)
           (w_trace w ++ [EvFopen path; EvFseekEnd; EvFtell; EvFseekSet;
                          EvMalloc (to_size_t (f_tell f))])).
Proof.
  intros Hopen Hend Htell Hset Hmalloc.
  apply Z.eqb_neq in Htell.
  unfold load_and_run. run_io.
  repeat (progress (run_monad;
                    rewrite ?Hopen, ?Hend, ?Htell, ?Hset, ?Hmalloc;
                    cbn [Z.eqb negb andb])).
  rewrite <- !app_assoc. reflexivity.
Qed.

Lemma X17_input_allocation_failure_witness :
  load_and_run faulty_env 11%nat 1 0 "big.txt" init_world =
  (Ret 1,
   mkWorld "" "failed to allocate 1200 bytes.
" 0 0
     [EvFopen "big.txt"; EvFseekEnd; EvFtell; EvFseekSet; EvMalloc 1200]).
Proof.
  apply (X17_input_allocation_failure faulty_env 11%nat 1 0 "big.txt"
                                      big_file init_world).
  - reflexivity.
  - reflexivity.
  - discriminate.
  - reflexivity.
  - reflexivity.
Defined.

(** X18: an empty file.  When the file has length 0 and the request of 0
    bytes is granted, nothing is read, the read is not short, and the
    engines run on an empty buffer of length 0. *)
Theorem X18_empty_file (e : env) (re : pcre) (engine_types ncaps : Z)
    (path : string) (f : file) (w : world) :
  reaches_fread e path f ->
  f_tell f = 0 ->
  f_close f = 0 ->
  load_and_run e re engine_types ncaps path w =
  (run_engines e re engine_types ncaps [] 0 ;; ret 0)
    (mkWorld (w_stdout w) (w_stderr w) 0 (w_clock w)
             (w_trace w ++ [EvFopen path; EvFseekEnd; EvFtell; EvFseekSet;
                            EvMalloc 0; EvFread 0; EvFclose])).
Proof.
  intros Hreach Hzero Hclose.
  rewrite (load_and_run_loaded e re engine_types ncaps path f w Hreach).
  - rewrite Hzero. reflexivity.
  - rewrite Hzero. cbn. lia.
  - assumption.
Qed.

Lemma X18_empty_file_witness :
  load_and_run
    (mkEnv (-1) 1 1 2 "0.000001" (strerror sample_env)
           (pcre_compile sample_env) (pcre_fullinfo sample_env)
           (pcre_study sample_env)
           (fun re extra input len ovecsize => (1, [0; 0; 0]))
           (pcre_dfa_exec sample_env) (clock sample_env) (malloc sample_env)
           (fun path => inl (mkFile 0 0 0 [] true 0 0))
           (assert_text sample_env))
    30%nat 1 0 "empty.txt" init_world =
  (Ret 0,
   mkWorld "pcre default match (0, 0): 7 clock units elapsed.
(1 clock unit is 0.000001 sec)
" "" 0 2
     [EvFopen "empty.txt"; EvFseekEnd; EvFtell; EvFseekSet; EvMalloc 0;
      EvFread 0; EvFclose; EvMalloc 12; EvStudy 30%nat 0; EvClock;
      EvExec 30%nat 0%nat [] 0 0 0 3; EvClock]).
Proof.
  refine (eq_trans
            (X18_empty_file _ 30%nat 1 0 "empty.txt"
                            (mkFile 0 0 0 [] true 0 0) init_world _ _ _) _).
  - repeat split; reflexivity.
  - reflexivity.
  - reflexivity.
  - reflexivity.
Defined.

(** ** The engines that match, one after the other *)










(** ** What the streams hold when the process ends *)
















